(** * The stage orchestrator of the test-case generation pipeline

    A shallow embedding of [scripts/run_pipeline.py]: the directory layout,
    [ensure_dirs], [load_raw_text], [save_audit_log] and [main], over an
    explicit model of the file system, the calendar and the five imported
    collaborators. *)

From stdpp Require Import gmap strings list fin_maps pretty sorting.
From Stdlib Require Import Ascii.

Open Scope string_scope.
Open Scope list_scope.

(** ** Python values the script handles *)

(** The exceptions that can leave [main].  The message is the exception's
    argument; [Exception] stands for any other class a collaborator raises. *)
Inductive exn :=
| FileNotFoundError (msg : string)
| FileExistsError (msg : string)
| NotADirectoryError (msg : string)
| IsADirectoryError (msg : string)
| ValueError (msg : string)
| Exception (msg : string).

(** The result of a call: a value, or a raised exception. *)
Inductive res (A : Type) :=
| Ok (a : A)
| Raise (e : exn).
Arguments Ok {A} a.
Arguments Raise {A} e.

(** The spec's error names: [NotFoundError] is Python's [FileNotFoundError],
    [EmptyResultError] is the [ValueError] of line 74. *)
Definition is_NotFoundError {A} (r : res A) : Prop :=
  ∃ msg, r = Raise (FileNotFoundError msg).

Definition is_EmptyResultError {A} (r : res A) : Prop :=
  r = Raise (ValueError "No testable requirements found").

(** The exit status of the interpreter: 0 when [main] returns, 1 when an
    exception leaves it. *)
Definition exit_status {A} (r : res A) : nat :=
  match r with Ok _ => 0 | Raise _ => 1 end.

(** ** The file system *)

(** A path is the list of its components below [BASE_DIR]; [[]] is
    [BASE_DIR] itself, which exists (the script lives under it). *)
Abbreviation path := (list string).

Inductive node :=
| Dir
| File (content : string).

Abbreviation fsys := (gmap (list string) node).

Definition node_at (f : fsys) (p : path) : option node :=
  match p with [] => Some Dir | _ => f !! p end.

Definition parent (p : path) : path := removelast p.

(** [os.path.isdir(base/rest)], given that [base] is a directory: every
    component of [rest] leads to a directory. *)
Fixpoint isdir_from (base : path) (rest : list string) (f : fsys) : bool :=
  match rest with
  | [] => true
  | n :: rest' =>
      match f !! (base ++ [n]) with
      | Some Dir => isdir_from (base ++ [n]) rest' f
      | _ => false
      end
  end.

Definition isdir (f : fsys) (d : path) : bool := isdir_from [] d f.

(** [os.listdir]: the names of the entries directly under [d]. *)
Definition child_name (d p : path) : option string :=
  match last p with
  | Some n => if bool_decide (p = d ++ [n]) then Some n else None
  | None => None
  end.

Definition entries (f : fsys) (d : path) : list string :=
  omap (child_name d) (map_to_list f).*1.

(** [os.makedirs(base/rest, exist_ok=True)], the components of [rest] taken
    one by one: a directory that exists is kept, a missing one is created, a
    regular file in the way raises. *)
Fixpoint makedirs_from (base : path) (rest : list string) (f : fsys) : res fsys :=
  match rest with
  | [] => Ok f
  | n :: rest' =>
      let p := base ++ [n] in
      match f !! p with
      | Some Dir => makedirs_from p rest' f
      | Some (File _) =>
          Raise (match rest' with
                 | [] => FileExistsError "[Errno 17] File exists"
                 | _ => NotADirectoryError "[Errno 20] Not a directory"
                 end)
      | None => makedirs_from p rest' (<[p := Dir]> f)
      end
  end.

(** ** The world the script runs in *)

Inductive stage :=
| Normalizer
| CoverageExpander
| Generator
| Validator
| Deduplicator.

(** What a run does that can be observed from outside, in order: a file
    written or appended to, a collaborator called, a line printed. *)
Inductive event :=
| EvWrite (p : path) (content : string)
| EvAppend (p : path) (text : string)
| EvCall (s : stage)
| EvPrint (line : string).

(** [ticks] counts the readings of the system date: the [n]-th reading
    returns [date_today n] (see [Env]). *)
Record world := World {
  fs : fsys;
  ticks : nat;
  trace : list event;
}.

Definition set_fs (f : fsys) (w : world) : world :=
  World f (ticks w) (trace w).

Definition log (e : event) (w : world) : world :=
  World (fs w) (ticks w) (trace w ++ [e]).

Definition tick (w : world) : world :=
  World (fs w) (S (ticks w)) (trace w).

(** A computation: it returns or raises, and leaves a world behind either
    way (what was written before an exception stays written). *)
Definition M (A : Type) : Type := world → res A * world.

Global Instance M_ret : MRet M := λ A a w, (Ok a, w).

Global Instance M_bind : MBind M := λ A B k m w,
  match m w with
  | (Ok a, w') => k a w'
  | (Raise e, w') => (Raise e, w')
  end.

Definition raise {A} (e : exn) : M A := λ w, (Raise e, w).

(** The call of an imported function: the call is recorded, then its result
    or its exception comes back. *)
Definition call {A} (s : stage) (r : res A) : M A := λ w, (r, log (EvCall s) w).

Definition print (line : string) : M unit := λ w, (Ok tt, log (EvPrint line) w).

Definition os_makedirs (d : path) : M unit := λ w,
  match makedirs_from [] d (fs w) with
  | Ok f => (Ok tt, set_fs f w)
  | Raise e => (Raise e, w)
  end.

Definition os_listdir (d : path) : M (list string) := λ w,
  match node_at (fs w) d with
  | Some Dir => (Ok (entries (fs w) d), w)
  | Some (File _) => (Raise (NotADirectoryError "[Errno 20] Not a directory"), w)
  | None => (Raise (FileNotFoundError "[Errno 2] No such file or directory"), w)
  end.

(** [with open(p, "r", encoding="utf-8") as f: f.read()]; contents are kept
    as decoded text. *)
Definition read_text (p : path) : M string := λ w,
  match node_at (fs w) p with
  | Some (File c) => (Ok c, w)
  | Some Dir => (Raise (IsADirectoryError "[Errno 21] Is a directory"), w)
  | None => (Raise (FileNotFoundError "[Errno 2] No such file or directory"), w)
  end.

(** What opening [p] for writing raises, if anything: the directory of [p]
    must exist and [p] must not be a directory. *)
Definition open_for_writing (f : fsys) (p : path) : option exn :=
  match node_at f (parent p) with
  | Some Dir =>
      match node_at f p with
      | Some Dir => Some (IsADirectoryError "[Errno 21] Is a directory")
      | _ => None
      end
  | Some (File _) => Some (NotADirectoryError "[Errno 20] Not a directory")
  | None => Some (FileNotFoundError "[Errno 2] No such file or directory")
  end.

Definition old_content (f : fsys) (p : path) : string :=
  match f !! p with Some (File c) => c | _ => "" end.

(** The world after [p] was overwritten with [content], and after [text]
    was added at the end of [p]. *)
Definition written (p : path) (content : string) (w : world) : world :=
  log (EvWrite p content) (set_fs (<[p := File content]> (fs w)) w).

Definition appended (p : path) (text : string) (w : world) : world :=
  log (EvAppend p text)
    (set_fs (<[p := File (old_content (fs w) p +:+ text)]> (fs w)) w).

(** [with open(p, "w", encoding="utf-8") as f: f.write(content)] *)
Definition write_text (p : path) (content : string) : M unit := λ w,
  match open_for_writing (fs w) p with
  | Some e => (Raise e, w)
  | None => (Ok tt, written p content w)
  end.

(** [with open(p, "a", encoding="utf-8") as f: f.write(text)] *)
Definition append_text (p : path) (text : string) : M unit := λ w,
  match open_for_writing (fs w) p with
  | Some e => (Raise e, w)
  | None => (Ok tt, appended p text w)
  end.

(** ** What the script imports *)

(** [json.dump(obj, f, indent=2)]: the text written for [obj]. *)
Class JsonDump (A : Type) := json_dump : A → string.

(** The five collaborators, the serializers and the host: the absolute path
    of [BASE_DIR] and the calendar ([date_today n] is the ISO date returned
    by the [n]-th call of [datetime.date.today().isoformat()]). *)
Class Env := {
  Requirement : Type;
  CoverageItem : Type;
  TestCase : Type;
  Rejected : Type;
  normalize_requirements : string → res (list Requirement);
  expand_coverage : list Requirement → res (list CoverageItem);
  generate_testcases : list CoverageItem → res (list TestCase);
  validate_testcases : list TestCase → res (list TestCase * list Rejected);
  deduplicate : list TestCase → res (list TestCase);
  json_requirements :: JsonDump (list Requirement);
  json_rejected :: JsonDump (list Rejected);
  json_testcases :: JsonDump (list TestCase);
  to_excel : list TestCase → string;
  BASE_DIR : string;
  date_today : nat → string;
}.

(** ** Python built-ins the script uses *)

(** The order of [str]: lexicographic in the characters' codes. *)
Definition str_le (a b : string) : Prop := String.leb a b = true.

Global Instance str_le_dec : RelDecision str_le.
Proof. intros a b. unfold str_le. apply _. Defined.

(** [sorted(names)]: a stable merge sort, ascending. *)
Definition sorted (l : list string) : list string := merge_sort str_le l.

(** [name.startswith(pre)] *)
Definition startswith (pre name : string) : bool := String.prefix pre name.

(** The line feed of ["\n"]. *)
Definition nl : string := String "010"%char EmptyString.

(** [for x in l: body(x)] *)
Fixpoint for_each {A} (l : list A) (body : A → M unit) : M unit :=
  match l with
  | [] => mret tt
  | x :: l' => body x;; for_each l' body
  end.

(** ** The script *)

(** Lines 27-32: the layout below [BASE_DIR]. *)
Definition INPUT_DIR : path := ["inputs"].
Definition EXTRACTED_DIR : path := ["extracted"; "raw_text"].
Definition REQ_DIR : path := ["requirements"].
Definition OUTPUT_JSON : path := ["output"; "json"].
Definition OUTPUT_EXCEL : path := ["output"; "excel"].
Definition AUDIT_DIR : path := ["output"; "audit"].

(** [os.path.join(d, name)] for a single component [name]. *)
Definition os_path_join (d : path) (name : string) : path := d ++ [name].

(** The files [main] writes. *)
Definition req_file : path := os_path_join REQ_DIR "normalized_requirements.json".
Definition reject_log : path := ["validation"; "reject_log.json"].
Definition audit_log (date : string) : path :=
  os_path_join AUDIT_DIR ("generation_trace_" +:+ date +:+ ".log").
Definition json_out (date : string) : path :=
  os_path_join OUTPUT_JSON ("banking_test_cases_" +:+ date +:+ ".json").
Definition excel_out (date : string) : path :=
  os_path_join OUTPUT_EXCEL ("banking_test_cases_" +:+ date +:+ ".xlsx").

(** The run's local variables, returned by the model of [main] so that
    statements can speak of them ([main] itself returns [None]). *)
Record locals `{Env} := Locals {
  raw_file : string;
  requirements : list Requirement;
  coverage_items : list CoverageItem;
  generated_testcases : list TestCase;
  valid_testcases : list TestCase;
  rejected : list Rejected;
  final_testcases : list TestCase;
}.

Section Script.
Context `{E : Env}.

(** The absolute path, as the f-strings of lines 119 and 129 print it. *)
Definition abspath (p : path) : string := String.concat "/" (BASE_DIR :: p).

(** [datetime.date.today().isoformat()] *)
Definition today_isoformat : M string := λ w, (Ok (date_today (ticks w)), tick w).

(** Lines 35-37: the list of line 36, and the loop over it. *)
Definition created_dirs : list path :=
  [EXTRACTED_DIR; REQ_DIR; OUTPUT_JSON; OUTPUT_EXCEL; AUDIT_DIR].

Definition ensure_dirs : M unit := for_each created_dirs os_makedirs.

(** The directory of [reject_log] (line 98), which is not in that list. *)
Definition VALIDATION_DIR : path := ["validation"].

(** Lines 40-51. *)
Definition load_raw_text : M (string * string) :=
  names ← os_listdir EXTRACTED_DIR;
  let files := sorted (filter (λ f, startswith "RAW_TEXT_" f = true) names) in
  match last files with
  | None => raise (FileNotFoundError "No RAW_TEXT file found. Run extraction first.")
  | Some latest =>
      text ← read_text (os_path_join EXTRACTED_DIR latest);
      mret (text, latest)
  end.

(** An entry of the extracted-text directory whose name has the prefix. *)
Definition raw_text_entry (f : fsys) (name : string) : Prop :=
  is_Some (f !! os_path_join EXTRACTED_DIR name) ∧ startswith "RAW_TEXT_" name = true.

(** Lines 54-60. *)
Definition save_audit_log (message : string) : M unit :=
  date ← today_isoformat;
  append_text (audit_log date) (message +:+ nl).

(** Lines 64-69: the layout, the first audit entry and the raw text. *)
Definition startup : M (string * string) :=
  ensure_dirs;;
  save_audit_log "Pipeline started";;
  '(raw_text, raw_file) ← load_raw_text;
  save_audit_log ("Loaded raw input: " +:+ raw_file);;
  mret (raw_text, raw_file).

(** Lines 72-83. *)
Definition normalize (raw_text : string) : M (list Requirement) :=
  requirements ← call Normalizer (normalize_requirements raw_text);
  match requirements with
  | [] => raise (ValueError "No testable requirements found")
  | _ =>
      write_text req_file (json_dump requirements);;
      save_audit_log
        ("Normalized " +:+ pretty (length requirements) +:+ " requirements");;
      mret requirements
  end.

(** Lines 86-87. *)
Definition expand (requirements : list Requirement) : M (list CoverageItem) :=
  coverage_items ← call CoverageExpander (expand_coverage requirements);
  save_audit_log
    ("Expanded to " +:+ pretty (length coverage_items) +:+ " coverage intents");;
  mret coverage_items.

(** Lines 90-91. *)
Definition generate (coverage_items : list CoverageItem) : M (list TestCase) :=
  generated_testcases ← call Generator (generate_testcases coverage_items);
  save_audit_log
    ("Generated " +:+ pretty (length generated_testcases) +:+ " raw test cases");;
  mret generated_testcases.

(** Lines 94-103. *)
Definition validate (generated_testcases : list TestCase)
    : M (list TestCase * list Rejected) :=
  '(valid_testcases, rejected) ← call Validator (validate_testcases generated_testcases);
  match rejected with
  | [] => mret tt
  | _ =>
      write_text reject_log (json_dump rejected);;
      save_audit_log
        ("Rejected " +:+ pretty (length rejected) +:+ " invalid test cases")
  end;;
  mret (valid_testcases, rejected).

(** Lines 106-109. *)
Definition dedup (valid_testcases : list TestCase) : M (list TestCase) :=
  final_testcases ← call Deduplicator (deduplicate valid_testcases);
  save_audit_log
    ("Final test case count after de-duplication: "
       +:+ pretty (length final_testcases));;
  mret final_testcases.

(** Lines 112-129: the two exports, each named after the day it is made. *)
Definition export (final_testcases : list TestCase) : M unit :=
  date ← today_isoformat;
  write_text (json_out date) (json_dump final_testcases);;
  save_audit_log ("Exported JSON: " +:+ abspath (json_out date));;
  date' ← today_isoformat;
  write_text (excel_out date') (to_excel final_testcases);;
  save_audit_log ("Exported Excel: " +:+ abspath (excel_out date')).

(** Lines 63-132. *)
Definition main : M locals :=
  '(raw_text, raw_file) ← startup;
  requirements ← normalize raw_text;
  coverage_items ← expand requirements;
  generated_testcases ← generate coverage_items;
  '(valid_testcases, rejected) ← validate generated_testcases;
  final_testcases ← dedup valid_testcases;
  export final_testcases;;
  save_audit_log "Pipeline completed successfully";;
  print "Test Case Generation Pipeline completed successfully";;
  mret (Locals _ raw_file requirements coverage_items generated_testcases
          valid_testcases rejected final_testcases).

(** *** The rest of [main] from each stage on *)

(** [main] from line 106 on, from line 94 on, and so on back to line 72;
    [main_unfold] below shows that [main] is [startup] followed by
    [after_startup]. *)
Definition after_validation (raw_file : string) (requirements : list Requirement)
    (coverage_items : list CoverageItem) (generated_testcases : list TestCase)
    (valid_testcases : list TestCase) (rejected : list Rejected) : M locals :=
  final_testcases ← dedup valid_testcases;
  export final_testcases;;
  save_audit_log "Pipeline completed successfully";;
  print "Test Case Generation Pipeline completed successfully";;
  mret (Locals _ raw_file requirements coverage_items generated_testcases
          valid_testcases rejected final_testcases).

Definition after_generation (raw_file : string) (requirements : list Requirement)
    (coverage_items : list CoverageItem) (generated_testcases : list TestCase)
    : M locals :=
  '(valid_testcases, rejected) ← validate generated_testcases;
  after_validation raw_file requirements coverage_items generated_testcases
    valid_testcases rejected.

Definition after_expansion (raw_file : string) (requirements : list Requirement)
    (coverage_items : list CoverageItem) : M locals :=
  generated_testcases ← generate coverage_items;
  after_generation raw_file requirements coverage_items generated_testcases.

Definition after_normalization (raw_file : string) (requirements : list Requirement)
    : M locals :=
  coverage_items ← expand requirements;
  after_expansion raw_file requirements coverage_items.

Definition after_startup (raw_text raw_file : string) : M locals :=
  requirements ← normalize raw_text;
  after_normalization raw_file requirements.

(** *** Why a run can abort after normalization *)


(** An exception raised by the Generator, the Validator or the
    Deduplicator. *)
Definition collaborator_failure (e : exn) : Prop :=
  (∃ items, generate_testcases items = Raise e) ∨
  (∃ cases, validate_testcases cases = Raise e) ∨
  (∃ valid, deduplicate valid = Raise e).

(** *** The worlds a run goes through *)

(** The world after an audit entry, and whether the entry can be written. *)
Definition audited (message : string) (w : world) : world :=
  appended (audit_log (date_today (ticks w))) (message +:+ nl) (tick w).

Definition auditable (w : world) : Prop :=
  open_for_writing (fs w) (audit_log (date_today (ticks w))) = None.

(** The world each stage leaves when it returns, from the world it starts
    in and the value it returns. *)
Definition startup_world (raw_file : string) (w : world) : world :=
  audited ("Loaded raw input: " +:+ raw_file) (audited "Pipeline started" w).

Definition normalize_world (requirements : list Requirement) (w : world) : world :=
  audited ("Normalized " +:+ pretty (length requirements) +:+ " requirements")
    (written req_file (json_dump requirements) (log (EvCall Normalizer) w)).

Definition expand_world (coverage_items : list CoverageItem) (w : world) : world :=
  audited ("Expanded to " +:+ pretty (length coverage_items) +:+ " coverage intents")
    (log (EvCall CoverageExpander) w).

Definition generate_world (generated_testcases : list TestCase) (w : world) : world :=
  audited ("Generated " +:+ pretty (length generated_testcases) +:+ " raw test cases")
    (log (EvCall Generator) w).

Definition validate_world (rejected : list Rejected) (w : world) : world :=
  match rejected with
  | [] => log (EvCall Validator) w
  | _ =>
      audited ("Rejected " +:+ pretty (length rejected) +:+ " invalid test cases")
        (written reject_log (json_dump rejected) (log (EvCall Validator) w))
  end.

Definition dedup_world (final_testcases : list TestCase) (w : world) : world :=
  audited ("Final test case count after de-duplication: "
             +:+ pretty (length final_testcases))
    (log (EvCall Deduplicator) w).

Definition json_exported (final_testcases : list TestCase) (w : world) : world :=
  let date := date_today (ticks w) in
  audited ("Exported JSON: " +:+ abspath (json_out date))
    (written (json_out date) (json_dump final_testcases) (tick w)).

Definition excel_exported (final_testcases : list TestCase) (w : world) : world :=
  let date := date_today (ticks w) in
  audited ("Exported Excel: " +:+ abspath (excel_out date))
    (written (excel_out date) (to_excel final_testcases) (tick w)).

Definition export_world (final_testcases : list TestCase) (w : world) : world :=
  excel_exported final_testcases (json_exported final_testcases w).

Definition finish_world (w : world) : world :=
  log (EvPrint "Test Case Generation Pipeline completed successfully")
    (audited "Pipeline completed successfully" w).

(** The world a completed run leaves, from the world [ensure_dirs] left and
    the run's values. *)
Definition main_world (v : locals) (w : world) : world :=
  finish_world
    (export_world (final_testcases v)
       (dedup_world (final_testcases v)
          (validate_world (rejected v)
             (generate_world (generated_testcases v)
                (expand_world (coverage_items v)
                   (normalize_world (requirements v)
                      (startup_world (raw_file v) w))))))).

(** *** How far a run gets *)

(** The run from [w] loads [raw_text] and is about to normalize it, in
    world [w1]. *)
Definition reaches_normalization (w : world) (raw_text raw_file : string)
    (w1 : world) : Prop :=
  startup w = (Ok (raw_text, raw_file), w1).

(** The run from [w] has normalized the text into [reqs] and is about to
    expand them, in world [w2]. *)
Definition reaches_expansion (w : world) (reqs : list Requirement) (w2 : world) : Prop :=
  ∃ raw_text raw_file w1,
    reaches_normalization w raw_text raw_file w1 ∧
    normalize raw_text w1 = (Ok reqs, w2).

(** The run from [w] has generated [cases] and is about to validate them,
    in world [w4]. *)
Definition reaches_validation (w : world) (cases : list TestCase) (w4 : world) : Prop :=
  ∃ reqs w2 items w3,
    reaches_expansion w reqs w2 ∧
    expand reqs w2 = (Ok items, w3) ∧
    generate items w3 = (Ok cases, w4).

End Script.

(** The lines appended to the audit log among the events of a run. *)
Definition audit_entries (events : list event) : list string :=
  omap (λ e, match e with EvAppend _ text => Some text | _ => None end) events.

(** The collaborators called among the events of a run. *)
Definition stages_called (events : list event) : list stage :=
  omap (λ e, match e with EvCall s => Some s | _ => None end) events.

(** The files overwritten among the events of a run. *)
Definition files_written (events : list event) : list path :=
  omap (λ e, match e with EvWrite p _ => Some p | _ => None end) events.

(** ** The validator and the deduplicator, as the spec describes them *)

(** Modelled from the spec: the Validator ([validation/quality_checks.py],
    not part of the sources) "partitions the generated TestCase sequence into
    valid and rejected subsets; a rejected TestCase carries a reason".  The
    rule set is left open: [verdict t] is [None] for a valid case and the
    reason otherwise. *)
Definition spec_validate {T} (verdict : T → option string) (cases : list T)
    : list T * list (T * string) :=
  (filter (λ t, verdict t = None) cases,
   omap (λ t, (λ reason, (t, reason)) <$> verdict t) cases).

(** Modelled from the spec: the Deduplicator ([validation/deduplicate.py],
    not part of the sources) removes "test cases deemed equivalent under a
    collaborator-defined similarity rule", so that "no two entries are
    duplicates" and "relative order from generation is otherwise preserved":
    a case is kept unless an earlier kept case is its duplicate. *)
Definition spec_deduplicate {T} (dup : T → T → bool) (cases : list T) : list T :=
  foldl (λ kept t, if existsb (dup t) kept then kept else kept ++ [t]) [] cases.

(** An environment whose Validator and Deduplicator are the two above; the
    rest is [E]'s. *)
Definition spec_env (E : Env) (verdict : TestCase → option string)
    (dup : TestCase → TestCase → bool)
    (json_rej : JsonDump (list (TestCase * string))) : Env :=
  {| Requirement := Requirement;
     CoverageItem := CoverageItem;
     TestCase := TestCase;
     Rejected := TestCase * string;
     normalize_requirements := normalize_requirements;
     expand_coverage := expand_coverage;
     generate_testcases := generate_testcases;
     validate_testcases := λ cases, Ok (spec_validate verdict cases);
     deduplicate := λ cases, Ok (spec_deduplicate dup cases);
     json_requirements := json_requirements;
     json_rejected := json_rej;
     json_testcases := json_testcases;
     to_excel := to_excel;
     BASE_DIR := BASE_DIR;
     date_today := date_today |}.

(** ** Deterministic fakes and sample worlds *)

Definition json_strings (l : list string) : string :=
  "[" +:+ String.concat ", " l +:+ "]".

(** Collaborators that return fixed sequences, on a host where every day is
    2024-05-17. *)
Definition fake_env (reqs items cases valid rej final : list string) : Env :=
  {| Requirement := string;
     CoverageItem := string;
     TestCase := string;
     Rejected := string;
     normalize_requirements := λ _, Ok reqs;
     expand_coverage := λ _, Ok items;
     generate_testcases := λ _, Ok cases;
     validate_testcases := λ _, Ok (valid, rej);
     deduplicate := λ _, Ok final;
     json_requirements := json_strings;
     json_rejected := json_strings;
     json_testcases := json_strings;
     to_excel := λ l, "xlsx:" +:+ json_strings l;
     BASE_DIR := "/srv/testgen";
     date_today := λ _, "2024-05-17" |}.

(** A checkout in which nothing has been extracted yet. *)
Definition empty_world : world := World ∅ 0 [].

(** A checkout after extraction: two raw-text files, no [validation]
    directory. *)
Definition extracted_fs : fsys :=
  <[ ["extracted"; "raw_text"; "RAW_TEXT_2024-05-16.txt"] :=
       File "Users must be able to reset a forgotten password" ]>
  (<[ ["extracted"; "raw_text"; "RAW_TEXT_2024-05-02.txt"] := File "An older text" ]>
  (<[ ["extracted"; "raw_text"; "notes.txt"] := File "zzz" ]>
  (<[ ["extracted"; "raw_text"] := Dir ]>
  (<[ ["extracted"] := Dir ]> ∅)))).

Definition extracted_world : world := World extracted_fs 0 [].

(** The same checkout with the [validation] directory in place. *)
Definition validation_world : world :=
  World (<[ ["validation"] := Dir ]> extracted_fs) 0 [].

(** A run with nothing rejected, one with a rejection, one whose Normalizer
    finds nothing, and one whose Coverage Expander finds nothing. *)
Definition full_env : Env :=
  fake_env ["R1"] ["R1 happy path"; "R1 expired token"]
    ["T1"; "T2"; "T2"] ["T1"; "T2"; "T2"] [] ["T1"; "T2"].

Definition rejecting_env : Env :=
  fake_env ["R1"] ["R1 happy path"; "R1 expired token"]
    ["T1"; "T2"; "untitled"] ["T1"; "T2"] ["untitled: no steps"] ["T1"; "T2"].

Definition no_requirements_env : Env := fake_env [] [] [] [] [] [].


(** A validation rule and a similarity rule for the spec's Validator and
    Deduplicator: a case without a title is rejected, cases with the same
    title are duplicates. *)
Definition needs_title (t : string) : option string :=
  if String.eqb t "" then Some "no title" else None.

Definition spec_base_env : Env :=
  fake_env ["R1"] ["R1 happy path"] ["T1"; ""; "T2"; "T1"] [] [] [].

Definition json_reasons : JsonDump (list (string * string)) :=
  λ l, json_strings (l.*2).

Definition spec_full_env : Env :=
  spec_env spec_base_env needs_title String.eqb json_reasons.

(** ** The vocabulary of the proofs *)

Implicit Types (f : fsys) (p d base : path) (rest : list string) (ds : list path).

(** Everything in [f] is in [f'], unchanged. *)
Definition extends (f f' : fsys) : Prop := ∀ p x, f !! p = Some x → f' !! p = Some x.

(** The [files] of line 44. *)
Definition raw_text_files f : list string :=
  sorted (filter (λ n, startswith "RAW_TEXT_" n = true) (entries f EXTRACTED_DIR)).

(** A path that is no audit log. *)
Definition not_a_log (q : path) : Prop := ∀ date, q ≠ audit_log date.

(** [m] relates the world it starts in to the world it leaves, whether it
    returns or raises. *)
Definition preserves {A} (I : relation world) (m : M A) : Prop :=
  ∀ w r w', m w = (r, w') → I w w'.

(** [m] raises only exceptions in [C]. *)
Definition blames {A} (C : exn → Prop) (m : M A) : Prop :=
  ∀ w e w', m w = (Raise e, w') → C e.

(** From [w] to [w'] the trace has only grown, by events that write none
    of the paths in [P], and those paths hold what they held. *)
Definition leaves (P : path → Prop) (w w' : world) : Prop :=
  (∀ q, P q → fs w' !! q = fs w !! q) ∧
  ∃ events, trace w' = trace w ++ events ∧ Forall (λ q, ¬ P q) (files_written events).

(** Two file systems with the same directories, and with the same entries
    in the extracted-text directory. *)
Definition same_dirs f f' : Prop := ∀ q, f !! q = Some Dir ↔ f' !! q = Some Dir.

Definition same_input f f' : Prop :=
  ∀ name, f !! os_path_join EXTRACTED_DIR name = f' !! os_path_join EXTRACTED_DIR name.

Definition layout f : Prop := Forall (λ d, isdir f d = true) created_dirs.

(** Two worlds a run cannot tell apart, the layout being in place. *)
Definition alike (w w' : world) : Prop :=
  layout (fs w) ∧ same_dirs (fs w) (fs w') ∧ same_input (fs w) (fs w').

(** [m] returns in a world like the one it started in, and returns the
    same in any world like it. *)
Definition faithful {A} (m : M A) : Prop :=
  ∀ w w' a w1, alike w w' → m w = (Ok a, w1) →
    alike w w1 ∧ ∃ w1', m w' = (Ok a, w1') ∧ alike w' w1'.

(** ** What a run may change, call and raise *)

Section Outputs.
Context `{E : Env}.

(** The files [main] overwrites: those opened with mode ["w"] (lines 80,
    100 and 116) and the spreadsheet of line 127, the two exports under the
    dates the calendar gives. *)
Definition output_file (q : path) : Prop :=
  q = req_file ∨ q = reject_log ∨
  (∃ n, q = json_out (date_today n)) ∨ (∃ n, q = excel_out (date_today n)).

(** The files [save_audit_log] opens with mode ["a"] (line 59). *)
Definition audit_file (q : path) : Prop := ∃ n, q = audit_log (date_today n).

End Outputs.

(** A directory on the way to one of the five of line 36. *)
Definition layout_dir (q : path) : Prop :=
  q ≠ [] ∧ ∃ d, d ∈ created_dirs ∧ q `prefix_of` d.


(** How [w'] may differ from [w] at a path: not at all, by a directory of
    the layout that was missing, by an output file overwritten, or by an
    audit log with text added at its end. *)
Definition touches `{Env} (w w' : world) : Prop :=
  ∀ q, fs w' !! q = fs w !! q ∨
       (layout_dir q ∧ fs w !! q = None ∧ fs w' !! q = Some Dir) ∨
       (output_file q ∧ fs w !! q ≠ Some Dir ∧
        ∃ content, fs w' !! q = Some (File content)) ∨
       (audit_file q ∧ fs w !! q ≠ Some Dir ∧
        ∃ text, fs w' !! q = Some (File (old_content (fs w) q +:+ text))).

(** Every entry of [f] lies in a directory of [f]. *)
Definition well_formed f : Prop :=
  map_Forall (λ q _, node_at f (parent q) = Some Dir) f.

Definition stays_well_formed (w w' : world) : Prop :=
  well_formed (fs w) → well_formed (fs w').

Definition returns {A} (r : res A) : Prop := ∃ a, r = Ok a.

(** From [w] to [w'] the trace has only grown, by events in [Q]. *)
Definition grows_by (Q : event → Prop) (w w' : world) : Prop :=
  ∃ events, trace w' = trace w ++ events ∧ Forall Q events.

Definition no_call (e : event) : Prop := ∀ s, e ≠ EvCall s.

Definition no_print (e : event) : Prop := ∀ line, e ≠ EvPrint line.

(** [m] calls the collaborators of [l] in that order as long as it goes,
    and all of them when it returns. *)
Definition calls {A} (l : list stage) (m : M A) : Prop :=
  ∀ w r w', m w = (r, w') →
    ∃ events, trace w' = trace w ++ events ∧
              stages_called events `prefix_of` l ∧
              (returns r → stages_called events = l).

(** The lines printed among the events of a run. *)
Definition lines_printed (events : list event) : list string :=
  omap (λ e, match e with EvPrint line => Some line | _ => None end) events.

(** [m] prints [line] as its last act when it returns, and nothing when it
    raises. *)
Definition announces {A} (line : string) (m : M A) : Prop :=
  ∀ w r w', m w = (r, w') →
    ∃ events, trace w' = trace w ++ events ∧
      match r with
      | Ok _ => lines_printed events = [line] ∧ last events = Some (EvPrint line)
      | Raise _ => lines_printed events = []
      end.


(** An exception raised by one of the five collaborators. *)
Definition raised_by_collaborator `{Env} (e : exn) : Prop :=
  (∃ raw_text, normalize_requirements raw_text = Raise e) ∨
  (∃ reqs, expand_coverage reqs = Raise e) ∨
  collaborator_failure e.

(** The messages a completed run passes to [save_audit_log] (lines 65-131),
    in order, given the dates of the two exports. *)
Definition audit_messages `{Env} (v : locals) (date_json date_excel : string)
    : list string :=
  [ "Pipeline started";
    "Loaded raw input: " +:+ raw_file v;
    "Normalized " +:+ pretty (length (requirements v)) +:+ " requirements";
    "Expanded to " +:+ pretty (length (coverage_items v)) +:+ " coverage intents";
    "Generated " +:+ pretty (length (generated_testcases v)) +:+ " raw test cases" ]
  ++ match rejected v with
     | [] => []
     | _ => [ "Rejected " +:+ pretty (length (rejected v)) +:+ " invalid test cases" ]
     end
  ++ [ "Final test case count after de-duplication: "
         +:+ pretty (length (final_testcases v));
       "Exported JSON: " +:+ abspath (json_out date_json);
       "Exported Excel: " +:+ abspath (excel_out date_excel);
       "Pipeline completed successfully" ].

(** The text [save_audit_log] adds for a list of messages. *)
Definition audit_text (messages : list string) : string :=
  String.concat "" ((λ message, message +:+ nl) <$> messages).

(** The exception of the operating system for a path that leads through a
    missing directory. *)
Definition ENOENT : exn := FileNotFoundError "[Errno 2] No such file or directory".

(** With the layout in place, [m] keeps it, leaves the [validation]
    directory as it is, and raises [ENOENT] only if a collaborator raised
    it or that directory is missing. *)
Definition diagnosed `{Env} {A} (m : M A) : Prop :=
  ∀ w r w', layout (fs w) → m w = (r, w') →
    layout (fs w') ∧
    fs w' !! VALIDATION_DIR = fs w !! VALIDATION_DIR ∧
    (r = Raise ENOENT → raised_by_collaborator ENOENT ∨ fs w !! VALIDATION_DIR = None).

(** ** Further sample worlds *)

(** A Generator that is out of service; the other collaborators are those
    of [full_env]. *)
Definition failing_generator_env : Env :=
  {| Requirement := string;
     CoverageItem := string;
     TestCase := string;
     Rejected := string;
     normalize_requirements := λ _, Ok ["R1"];
     expand_coverage := λ _, Ok ["R1 happy path"; "R1 expired token"];
     generate_testcases := λ _, Raise (Exception "generator unavailable");
     validate_testcases := λ cases, Ok (cases, []);
     deduplicate := λ cases, Ok cases;
     json_requirements := json_strings;
     json_rejected := json_strings;
     json_testcases := json_strings;
     to_excel := λ l, "xlsx:" +:+ json_strings l;
     BASE_DIR := "/srv/testgen";
     date_today := λ _, "2024-05-17" |}.

(** The checkout after extraction with one more file beside the raw texts,
    and with a directory whose name has the prefix and comes last. *)
Definition annotated_world : world :=
  World (<[ ["extracted"; "raw_text"; "README.md"] := File "scratch" ]> extracted_fs) 0 [].

Definition archive_world : world :=
  World (<[ ["extracted"; "raw_text"; "RAW_TEXT_archive"] := Dir ]> extracted_fs) 0 [].

(** * Proofs *)

(** ** The monad *)

Section Monad.
Context {A B : Type}.
Implicit Types (m : M A) (k : A → M B).

Lemma bind_Ok m k w a w1 : m w = (Ok a, w1) → (m ≫= k) w = k a w1.
Proof. intros H. unfold mbind, M_bind. by rewrite H. Qed.

Lemma bind_Raise m k w e w1 : m w = (Raise e, w1) → (m ≫= k) w = (Raise e, w1).
Proof. intros H. unfold mbind, M_bind. by rewrite H. Qed.

Lemma bind_Ok_inv m k w b w' :
  (m ≫= k) w = (Ok b, w') → ∃ a w1, m w = (Ok a, w1) ∧ k a w1 = (Ok b, w').
Proof.
  unfold mbind, M_bind. destruct (m w) as [[a|e] w1]; [eauto | discriminate].
Qed.

(** A run is its result and the world it leaves. *)
Lemma run_eq m w a : (m w).1 = Ok a → m w = (Ok a, (m w).2).
Proof. destruct (m w) as [r w1]. by intros [= ->]. Qed.

End Monad.

(** ** The order of strings *)

Lemma ascii_compare_refl c : (c ?= c)%char = Eq.
Proof. unfold Ascii.compare. apply N.compare_refl. Qed.

Lemma string_compare_trans s1 : ∀ s2 s3,
  String.compare s1 s2 ≠ Gt → String.compare s2 s3 ≠ Gt → String.compare s1 s3 ≠ Gt.
Proof.
  induction s1 as [|c1 s1 IH]; intros [|c2 s2] [|c3 s3]; simpl; try done.
  unfold Ascii.compare.
  destruct (N.compare_spec (N_of_ascii c1) (N_of_ascii c2)) as [E12|L12|G12];
    destruct (N.compare_spec (N_of_ascii c2) (N_of_ascii c3)) as [E23|L23|G23];
    try done; intros H12 H23.
  - rewrite E12, E23, N.compare_refl. by apply IH with s2.
  - rewrite E12. by apply N.compare_lt_iff in L23 as ->.
  - rewrite <- E23. by apply N.compare_lt_iff in L12 as ->.
  - assert (N_of_ascii c1 < N_of_ascii c3)%N as L by lia.
    by apply N.compare_lt_iff in L as ->.
Qed.

Global Instance str_le_trans : Transitive str_le.
Proof.
  intros s1 s2 s3. unfold str_le, String.leb. intros H12 H23.
  pose proof (string_compare_trans s1 s2 s3) as T.
  destruct (String.compare s1 s2), (String.compare s2 s3),
    (String.compare s1 s3); try done; exfalso; by apply T.
Qed.

Global Instance str_le_total : Total str_le.
Proof. intros s1 s2. apply String.leb_total. Qed.

Lemma elem_of_sorted n l : n ∈ sorted l ↔ n ∈ l.
Proof. unfold sorted. by rewrite merge_sort_Permutation. Qed.

Lemma last_StronglySorted (l : list string) latest :
  StronglySorted str_le l → last l = Some latest → ∀ n, n ∈ l → str_le n latest.
Proof.
  induction 1 as [|x l Hl IH Hx]; [done|].
  intros Hlast n Hn. destruct l as [|y l].
  - simpl in Hlast. apply list_elem_of_singleton in Hn. simplify_eq.
    unfold str_le. destruct (String.leb_total latest latest); done.
  - change (last (x :: y :: l)) with (last (y :: l)) in Hlast.
    apply elem_of_cons in Hn as [->|Hn]; [|by apply IH].
    pose proof (IH Hlast y) as Hy.
    rewrite Forall_forall in Hx.
    etrans; [apply Hx; left | apply Hy; left].
Qed.

(** The last name of the sorted list is one of the names and is not below
    any of them. *)
Lemma last_sorted l latest :
  last (sorted l) = Some latest → latest ∈ l ∧ ∀ n, n ∈ l → str_le n latest.
Proof.
  intros Hlast. split.
  - apply elem_of_sorted. apply last_Some in Hlast as [l' ->].
    apply elem_of_app. right. by left.
  - intros n Hn. apply (last_StronglySorted (sorted l)); [|done|by apply elem_of_sorted].
    apply StronglySorted_merge_sort; apply _.
Qed.

Lemma last_sorted_None l : last (sorted l) = None ↔ l = [].
Proof.
  rewrite last_None. split.
  - intros H. apply Permutation_nil_r. rewrite <- H. unfold sorted.
    by rewrite merge_sort_Permutation.
  - by intros ->.
Qed.

(** ** Directory listings *)

Lemma child_name_Some d p n : child_name d p = Some n ↔ p = d ++ [n].
Proof.
  unfold child_name. split.
  - destruct (last p) as [n'|]; [|done]. case_bool_decide; naive_solver.
  - intros ->. rewrite last_snoc. by rewrite bool_decide_true.
Qed.

Lemma elem_of_entries (f : fsys) d n : n ∈ entries f d ↔ is_Some (f !! (d ++ [n])).
Proof.
  unfold entries. rewrite list_elem_of_omap. split.
  - intros (p & Hp & Hn). apply child_name_Some in Hn as ->.
    apply list_elem_of_fmap in Hp as ([p v] & -> & Hpv).
    apply elem_of_map_to_list in Hpv. eauto.
  - intros [v Hv]. exists (d ++ [n]). split; [|by apply child_name_Some].
    apply list_elem_of_fmap. exists (d ++ [n], v). split; [done|].
    by apply elem_of_map_to_list.
Qed.

Lemma isdir_from_extends base rest (f f' : fsys) :
  extends f f' → isdir_from base rest f = true → isdir_from base rest f' = true.
Proof.
  intros Hext. revert base. induction rest as [|n rest IH]; intros base; simpl; [done|].
  destruct (f !! (base ++ [n])) as [[|c]|] eqn:Hn; try done.
  rewrite (Hext _ _ Hn). apply IH.
Qed.

(** What a successful [os.makedirs] leaves: the directory exists, nothing
    that existed has changed, and only directories on the way were added. *)
Lemma makedirs_from_Ok rest : ∀ base (f f' : fsys),
  makedirs_from base rest f = Ok f' →
  isdir_from base rest f' = true ∧ extends f f' ∧
  ∀ p, f' !! p = f !! p ∨
       (f !! p = None ∧ f' !! p = Some Dir ∧
        p `prefix_of` base ++ rest ∧ length base < length p).
Proof.
  induction rest as [|n rest IH]; intros base f f'; simpl.
  - intros [= ->]. split_and!; [done|by intros ?|by left].
  - destruct (f !! (base ++ [n])) as [[|c]|] eqn:Hn; [| done |].
    + intros (Hdir & Hext & Hnew)%IH. rewrite (Hext _ _ Hn). split_and!; [done..|].
      intros p. destruct (Hnew p) as [?|(? & ? & Hpre & Hlen)]; [by left|right].
      rewrite <- (assoc_L (++)) in Hpre. rewrite length_app in Hlen. simpl in *.
      split_and!; [done..|lia].
    + intros (Hdir & Hext & Hnew)%IH.
      rewrite (Hext (base ++ [n]) Dir) by apply lookup_insert_eq.
      split_and!; [done| |].
      * intros p x Hp. apply Hext. rewrite lookup_insert_ne; [done|congruence].
      * intros p. destruct (decide (p = base ++ [n])) as [->|Hne].
        { right. split_and!; [done|by apply Hext, lookup_insert_eq| |].
          - change (n :: rest) with ([n] ++ rest). rewrite (assoc_L (++)).
            by apply prefix_app_r.
          - rewrite length_app. simpl. lia. }
        destruct (Hnew p) as [Heq|(Hnone & ? & Hpre & Hlen)].
        { left. by rewrite Heq, lookup_insert_ne. }
        right. rewrite lookup_insert_ne in Hnone by done.
        rewrite <- (assoc_L (++)) in Hpre. rewrite length_app in Hlen. simpl in *.
        split_and!; [done..|lia].
Qed.

Lemma makedirs_from_isdir rest : ∀ base (f : fsys),
  isdir_from base rest f = true → makedirs_from base rest f = Ok f.
Proof.
  induction rest as [|n rest IH]; intros base f; simpl; [done|].
  destruct (f !! (base ++ [n])) as [[|c]|]; try done. apply IH.
Qed.

Lemma os_makedirs_Ok d w w' :
  os_makedirs d w = (Ok tt, w') → makedirs_from [] d (fs w) = Ok (fs w') ∧
  ticks w' = ticks w ∧ trace w' = trace w.
Proof.
  unfold os_makedirs. destruct (makedirs_from [] d (fs w)) as [f|e]; [|done].
  by intros [= <-].
Qed.

Lemma os_makedirs_isdir d w : isdir (fs w) d = true → os_makedirs d w = (Ok tt, w).
Proof.
  intros H. unfold os_makedirs. rewrite makedirs_from_isdir by done. by destruct w.
Qed.

Lemma for_each_makedirs_Ok ds : ∀ w w',
  for_each ds os_makedirs w = (Ok tt, w') →
  ticks w' = ticks w ∧ trace w' = trace w ∧
  Forall (λ d, isdir (fs w') d = true) ds ∧ extends (fs w) (fs w') ∧
  ∀ p, fs w' !! p = fs w !! p ∨
       (fs w !! p = None ∧ fs w' !! p = Some Dir ∧
        ∃ d, d ∈ ds ∧ p `prefix_of` d ∧ p ≠ []).
Proof.
  induction ds as [|d ds IH]; intros w w'; simpl.
  - intros [= <-]. split_and!; [done..|by intros ?|by left].
  - intros (u & w1 & Hd & Hrest)%bind_Ok_inv.
    destruct u. apply os_makedirs_Ok in Hd as (Hd & Ht1 & Htr1).
    apply makedirs_from_Ok in Hd as (Hdir & Hext & Hnew).
    apply IH in Hrest as (Ht & Htr & Hall & Hext' & Hnew').
    split_and!; [congruence..| | |].
    + constructor; [|done]. by apply (isdir_from_extends _ _ (fs w1)).
    + intros p x Hp. by apply Hext', Hext.
    + intros p. destruct (Hnew' p) as [Heq|(Hnone & Hdir' & d' & Hd' & Hpre & Hne)].
      * rewrite Heq. destruct (Hnew p) as [?|(? & ? & Hpre & Hlen)]; [by left|right].
        split_and!; [done..|]. exists d. split_and!; [by left|done|].
        intros ->. simpl in Hlen. lia.
      * right. split_and!; [|done|].
        { destruct (fs w !! p) eqn:Hp; [|done]. apply Hext in Hp. congruence. }
        exists d'. split_and!; [by right|done..].
Qed.

Lemma ensure_dirs_Ok w w' :
  ensure_dirs w = (Ok tt, w') →
  ticks w' = ticks w ∧ trace w' = trace w ∧
  Forall (λ d, isdir (fs w') d = true) created_dirs ∧ extends (fs w) (fs w') ∧
  ∀ p, fs w' !! p = fs w !! p ∨
       (fs w !! p = None ∧ fs w' !! p = Some Dir ∧
        ∃ d, d ∈ created_dirs ∧ p `prefix_of` d ∧ p ≠ []).
Proof. apply for_each_makedirs_Ok. Qed.

Lemma ensure_dirs_isdir w :
  Forall (λ d, isdir (fs w) d = true) created_dirs → ensure_dirs w = (Ok tt, w).
Proof.
  unfold ensure_dirs. induction 1 as [|d ds Hd _ IH]; simpl; [done|].
  by rewrite (bind_Ok _ _ _ _ _ (os_makedirs_isdir d w Hd)).
Qed.

(** A path with no directory of the layout above or at it is left alone. *)
Lemma ensure_dirs_frame w w' p :
  ensure_dirs w = (Ok tt, w') →
  (∀ d, d ∈ created_dirs → ¬ p `prefix_of` d) → fs w' !! p = fs w !! p.
Proof.
  intros (_ & _ & _ & _ & Hnew)%ensure_dirs_Ok Hp.
  destruct (Hnew p) as [?|(_ & _ & d & Hd & Hpre & _)]; [done|]. by destruct (Hp d).
Qed.

Lemma not_prefix_created p :
  Forall (λ d, bool_decide (p `prefix_of` d) = false) created_dirs →
  ∀ d, d ∈ created_dirs → ¬ p `prefix_of` d.
Proof.
  rewrite Forall_forall. intros H d Hd Hpre. specialize (H d Hd).
  by rewrite bool_decide_true in H.
Qed.

(** C4, as amended.  When [ensure_dirs] returns, the five directories of
    line 36 exist, nothing that existed has changed, the [validation]
    directory is as it was (it is not created), and calling [ensure_dirs]
    again changes nothing; when the five directories already exist
    [ensure_dirs] returns and changes nothing. *)
Theorem ensure_dirs_creates_layout w :
  (∀ w', ensure_dirs w = (Ok tt, w') →
     Forall (λ d, isdir (fs w') d = true) created_dirs ∧
     extends (fs w) (fs w') ∧
     fs w' !! VALIDATION_DIR = fs w !! VALIDATION_DIR ∧
     ensure_dirs w' = (Ok tt, w')) ∧
  (Forall (λ d, isdir (fs w) d = true) created_dirs → ensure_dirs w = (Ok tt, w)).
Proof.
  split; [|apply ensure_dirs_isdir].
  intros w' Hrun. pose proof Hrun as (_ & _ & Hdirs & Hext & _)%ensure_dirs_Ok.
  split_and!; [done..| |by apply ensure_dirs_isdir].
  apply (ensure_dirs_frame _ _ _ Hrun), not_prefix_created.
  by repeat constructor.
Qed.

Lemma ensure_dirs_creates_layout_witness :
  Forall (λ d, isdir (fs (ensure_dirs empty_world).2) d = true) created_dirs ∧
  fs (ensure_dirs empty_world).2 !! VALIDATION_DIR = None ∧
  ensure_dirs (ensure_dirs empty_world).2 = (Ok tt, (ensure_dirs empty_world).2).
Proof.
  destruct (proj1 (ensure_dirs_creates_layout empty_world) (ensure_dirs empty_world).2)
    as (Hdirs & _ & Hvalidation & Hagain).
  - apply run_eq. vm_compute. reflexivity.
  - split_and!; [exact Hdirs| |exact Hagain]. rewrite Hvalidation. reflexivity.
Defined.

(** On an empty checkout [ensure_dirs] returns, and there is no
    [validation] directory afterwards. *)
Lemma ensure_dirs_skips_validation_dir :
  (ensure_dirs empty_world).1 = Ok tt ∧
  isdir (fs (ensure_dirs empty_world).2) VALIDATION_DIR = false.
Proof. split; vm_compute; reflexivity. Qed.

Lemma node_at_snoc f d n : node_at f (d ++ [n]) = f !! (d ++ [n]).
Proof. by destruct d. Qed.

Lemma elem_of_raw_text_files f name : name ∈ raw_text_files f ↔ raw_text_entry f name.
Proof.
  unfold raw_text_files. rewrite elem_of_sorted, list_elem_of_filter, elem_of_entries.
  unfold raw_text_entry, os_path_join. tauto.
Qed.

Lemma last_raw_text_files_None f :
  last (raw_text_files f) = None ↔ ∀ name, ¬ raw_text_entry f name.
Proof.
  rewrite last_None. split.
  - intros Hnil name Hname%elem_of_raw_text_files. rewrite Hnil in Hname.
    by apply elem_of_nil in Hname.
  - intros Hnone. destruct (raw_text_files f) as [|name l] eqn:Hl; [done|].
    destruct (Hnone name). apply elem_of_raw_text_files. rewrite Hl. by left.
Qed.

Lemma last_raw_text_files_Some f latest :
  last (raw_text_files f) = Some latest ↔
  raw_text_entry f latest ∧ ∀ name, raw_text_entry f name → str_le name latest.
Proof.
  split.
  - intros [Hin Hmax]%last_sorted. split.
    + apply elem_of_raw_text_files, elem_of_sorted, Hin.
    + intros name Hname. by apply Hmax, elem_of_sorted, elem_of_raw_text_files.
  - intros [Hin Hmax]. destruct (last (raw_text_files f)) as [latest'|] eqn:Hlast.
    + pose proof Hlast as [Hin' Hmax']%last_sorted. f_equal.
      apply String.leb_antisym.
      * by apply Hmax, elem_of_raw_text_files, elem_of_sorted.
      * by apply Hmax', elem_of_sorted, elem_of_raw_text_files.
    + by destruct (proj1 (last_raw_text_files_None f) Hlast latest).
Qed.

(** [load_raw_text] once the directory has been listed. *)
Lemma load_raw_text_eq w :
  fs w !! EXTRACTED_DIR = Some Dir →
  load_raw_text w =
    match last (raw_text_files (fs w)) with
    | None =>
        (Raise (FileNotFoundError "No RAW_TEXT file found. Run extraction first."), w)
    | Some latest =>
        match fs w !! os_path_join EXTRACTED_DIR latest with
        | Some (File text) => (Ok (text, latest), w)
        | Some Dir => (Raise (IsADirectoryError "[Errno 21] Is a directory"), w)
        | None => (Raise (FileNotFoundError "[Errno 2] No such file or directory"), w)
        end
    end.
Proof.
  intros Hdir.
  assert (os_listdir EXTRACTED_DIR w = (Ok (entries (fs w) EXTRACTED_DIR), w)) as Hls.
  { unfold os_listdir. simpl. by rewrite Hdir. }
  unfold load_raw_text. rewrite (bind_Ok _ _ _ _ _ Hls).
  fold (raw_text_files (fs w)). destruct (last (raw_text_files (fs w))) as [latest|]; [|done].
  unfold mbind, M_bind, read_text, os_path_join. rewrite node_at_snoc.
  by destruct (fs w !! (EXTRACTED_DIR ++ [latest])) as [[|text]|].
Qed.



(** ** The primitives, when they return *)

Lemma ret_Ok_inv {A} (a b : A) w w' : (mret a : M A) w = (Ok b, w') → b = a ∧ w' = w.
Proof. by intros [= -> ->]. Qed.

Lemma call_Ok_inv {A} s (r : res A) a w w' :
  call s r w = (Ok a, w') → r = Ok a ∧ w' = log (EvCall s) w.
Proof. by intros [= -> <-]. Qed.

Lemma write_text_Ok_inv p c u w w' :
  write_text p c w = (Ok u, w') → open_for_writing (fs w) p = None ∧ w' = written p c w.
Proof. unfold write_text. destruct (open_for_writing _ _); [done|]. by intros [= <-]. Qed.

Lemma write_text_Ok p c w :
  open_for_writing (fs w) p = None → write_text p c w = (Ok tt, written p c w).
Proof. unfold write_text. by intros ->. Qed.

Lemma write_text_Raise p c e w :
  open_for_writing (fs w) p = Some e → write_text p c w = (Raise e, w).
Proof. unfold write_text. by intros ->. Qed.

Lemma open_for_writing_None f p :
  open_for_writing f p = None ↔
  node_at f (parent p) = Some Dir ∧ node_at f p ≠ Some Dir.
Proof.
  unfold open_for_writing.
  destruct (node_at f (parent p)) as [[|?]|], (node_at f p) as [[|?]|];
    split; try done; intros [? ?]; done.
Qed.

Section Steps.
Context `{E : Env}.
Implicit Types (w : world).

Lemma load_raw_text_world w r w' : load_raw_text w = (r, w') → w' = w.
Proof.
  unfold load_raw_text, mbind, M_bind, os_listdir, read_text, raise, mret, M_ret.
  repeat case_match; naive_solver.
Qed.

Lemma save_audit_log_eq msg w :
  save_audit_log msg w =
    match open_for_writing (fs w) (audit_log (date_today (ticks w))) with
    | Some e => (Raise e, tick w)
    | None => (Ok tt, audited msg w)
    end.
Proof. reflexivity. Qed.

Lemma save_audit_log_Ok msg w : auditable w → save_audit_log msg w = (Ok tt, audited msg w).
Proof. unfold auditable. rewrite save_audit_log_eq. by intros ->. Qed.

Lemma save_audit_log_Ok_inv msg u w w' :
  save_audit_log msg w = (Ok u, w') → auditable w ∧ w' = audited msg w.
Proof.
  rewrite save_audit_log_eq. unfold auditable.
  destruct (open_for_writing _ _); [done|]. by intros [= <-].
Qed.

Lemma today_isoformat_Ok_inv date w w' :
  today_isoformat w = (Ok date, w') → date = date_today (ticks w) ∧ w' = tick w.
Proof. by intros [= <- <-]. Qed.

End Steps.

(** Takes a returning run apart, one step at a time. *)
Ltac run_inv :=
  repeat match goal with
  | H : (_ ≫= _) _ = (Ok _, _) |- _ => apply bind_Ok_inv in H as (? & ? & ? & H)
  | H : save_audit_log _ _ = (Ok _, _) |- _ => apply save_audit_log_Ok_inv in H as [? ->]
  | H : write_text _ _ _ = (Ok _, _) |- _ => apply write_text_Ok_inv in H as [? ->]
  | H : call _ _ _ = (Ok _, _) |- _ => apply call_Ok_inv in H as [? ->]
  | H : today_isoformat _ = (Ok _, _) |- _ => apply today_isoformat_Ok_inv in H as [-> ->]
  | H : mret _ _ = (Ok _, _) |- _ => apply ret_Ok_inv in H as [? ?]
  | H : raise _ _ = (Ok _, _) |- _ => discriminate H
  | H : print _ _ = (Ok _, _) |- _ => injection H as <-
  | H : load_raw_text _ = (_, ?w') |- _ =>
      let E := fresh in pose proof (load_raw_text_world _ _ _ H) as E; subst w'
  | H : (let '(_, _) := ?x in _) _ = (Ok _, _) |- _ => destruct x
  | H : (match ?x with [] => _ | _ :: _ => _ end) _ = (Ok _, _) |- _ => destruct x
  | u : unit |- _ => destruct u
  end; simplify_eq.

Section Stages.
Context `{E : Env}.
Implicit Types (w : world).

Lemma startup_Ok_inv w raw_text raw_file w' :
  startup w = (Ok (raw_text, raw_file), w') →
  ∃ w0, ensure_dirs w = (Ok tt, w0) ∧ auditable w0 ∧
        load_raw_text (audited "Pipeline started" w0)
          = (Ok (raw_text, raw_file), audited "Pipeline started" w0) ∧
        auditable (audited "Pipeline started" w0) ∧
        w' = startup_world raw_file w0.
Proof. unfold startup. intros H. run_inv. eauto 10. Qed.

Lemma normalize_Ok_inv raw_text w reqs w' :
  normalize raw_text w = (Ok reqs, w') →
  normalize_requirements raw_text = Ok reqs ∧ reqs ≠ [] ∧
  open_for_writing (fs w) req_file = None ∧
  auditable (written req_file (json_dump reqs) (log (EvCall Normalizer) w)) ∧
  w' = normalize_world reqs w.
Proof. unfold normalize. intros H. run_inv. eauto 10. Qed.

Lemma expand_Ok_inv reqs w items w' :
  expand reqs w = (Ok items, w') →
  expand_coverage reqs = Ok items ∧ auditable (log (EvCall CoverageExpander) w) ∧
  w' = expand_world items w.
Proof. unfold expand. intros H. run_inv. eauto. Qed.

Lemma generate_Ok_inv items w cases w' :
  generate items w = (Ok cases, w') →
  generate_testcases items = Ok cases ∧ auditable (log (EvCall Generator) w) ∧
  w' = generate_world cases w.
Proof. unfold generate. intros H. run_inv. eauto. Qed.

Lemma validate_Ok_inv cases w valid rej w' :
  validate cases w = (Ok (valid, rej), w') →
  validate_testcases cases = Ok (valid, rej) ∧ w' = validate_world rej w ∧
  (rej ≠ [] → open_for_writing (fs w) reject_log = None).
Proof. unfold validate. intros H. run_inv; [done|]. split_and!; [done..|]. eauto. Qed.

Lemma dedup_Ok_inv valid w final w' :
  dedup valid w = (Ok final, w') →
  deduplicate valid = Ok final ∧ auditable (log (EvCall Deduplicator) w) ∧
  w' = dedup_world final w.
Proof. unfold dedup. intros H. run_inv. eauto. Qed.

Lemma export_Ok_inv final u w w' :
  export final w = (Ok u, w') → w' = export_world final w.
Proof. unfold export. intros H. run_inv. done. Qed.

Lemma main_unfold w :
  main w = (startup ≫= λ '(raw_text, raw_file), after_startup raw_text raw_file) w.
Proof. reflexivity. Qed.

Lemma main_from_normalization w raw_text raw_file w1 :
  reaches_normalization w raw_text raw_file w1 →
  main w = after_startup raw_text raw_file w1.
Proof. intros H. rewrite main_unfold. by rewrite (bind_Ok _ _ _ _ _ H). Qed.

Lemma main_from_expansion w reqs w2 :
  reaches_expansion w reqs w2 →
  ∃ raw_file, main w = after_normalization raw_file reqs w2.
Proof.
  intros (raw_text & raw_file & w1 & H1 & H2). exists raw_file.
  rewrite (main_from_normalization _ _ _ _ H1). unfold after_startup.
  by rewrite (bind_Ok _ _ _ _ _ H2).
Qed.

Lemma main_from_validation w cases w4 :
  reaches_validation w cases w4 →
  ∃ raw_file reqs items, main w = after_generation raw_file reqs items cases w4.
Proof.
  intros (reqs & w2 & items & w3 & H2 & H3 & H4).
  destruct (main_from_expansion _ _ _ H2) as [raw_file ->].
  exists raw_file, reqs, items. unfold after_normalization.
  rewrite (bind_Ok _ _ _ _ _ H3). unfold after_expansion.
  by rewrite (bind_Ok _ _ _ _ _ H4).
Qed.

(** A completed run, taken apart: what each collaborator returned, and the
    world left. *)
Lemma main_Ok_inv w v w' :
  main w = (Ok v, w') →
  ∃ w0 raw_text,
    ensure_dirs w = (Ok tt, w0) ∧
    load_raw_text (audited "Pipeline started" w0)
      = (Ok (raw_text, raw_file v), audited "Pipeline started" w0) ∧
    normalize_requirements raw_text = Ok (requirements v) ∧
    requirements v ≠ [] ∧
    expand_coverage (requirements v) = Ok (coverage_items v) ∧
    generate_testcases (coverage_items v) = Ok (generated_testcases v) ∧
    validate_testcases (generated_testcases v) = Ok (valid_testcases v, rejected v) ∧
    deduplicate (valid_testcases v) = Ok (final_testcases v) ∧
    w' = main_world v w0.
Proof.
  rewrite main_unfold. intros H.
  apply bind_Ok_inv in H as ([raw_text raw_f] & w1 & H1 & H).
  apply startup_Ok_inv in H1 as (w0 & Hdirs & _ & Hload & _ & ->).
  apply bind_Ok_inv in H as (reqs & w2 & H2 & H).
  apply normalize_Ok_inv in H2 as (Hnorm & Hne & _ & _ & ->).
  apply bind_Ok_inv in H as (items & w3 & H3 & H).
  apply expand_Ok_inv in H3 as (Hexp & _ & ->).
  apply bind_Ok_inv in H as (cases & w4 & H4 & H).
  apply generate_Ok_inv in H4 as (Hgen & _ & ->).
  apply bind_Ok_inv in H as ([valid rej] & w5 & H5 & H).
  apply validate_Ok_inv in H5 as (Hval & -> & _).
  apply bind_Ok_inv in H as (final & w6 & H6 & H).
  apply dedup_Ok_inv in H6 as (Hded & _ & ->).
  apply bind_Ok_inv in H as (u & w7 & H7 & H).
  apply export_Ok_inv in H7 as ->.
  apply bind_Ok_inv in H as (u' & w8 & H8 & H).
  apply save_audit_log_Ok_inv in H8 as [_ ->].
  apply bind_Ok_inv in H as (u'' & w9 & H9 & H).
  injection H9 as <-. apply ret_Ok_inv in H as [-> ->].
  exists w0, raw_text. by split_and!.
Qed.

End Stages.

(** ** The trace and the clock of a world *)

Lemma trace_log e w : trace (log e w) = trace w ++ [e].
Proof. reflexivity. Qed.
Lemma trace_tick w : trace (tick w) = trace w.
Proof. reflexivity. Qed.
Lemma trace_written p c w : trace (written p c w) = trace w ++ [EvWrite p c].
Proof. reflexivity. Qed.
Lemma trace_appended p t w : trace (appended p t w) = trace w ++ [EvAppend p t].
Proof. reflexivity. Qed.
Lemma ticks_log e w : ticks (log e w) = ticks w.
Proof. reflexivity. Qed.
Lemma ticks_tick w : ticks (tick w) = S (ticks w).
Proof. reflexivity. Qed.
Lemma ticks_written p c w : ticks (written p c w) = ticks w.
Proof. reflexivity. Qed.
Lemma ticks_appended p t w : ticks (appended p t w) = ticks w.
Proof. reflexivity. Qed.

Lemma trace_audited `{Env} msg w :
  trace (audited msg w) = trace w ++ [EvAppend (audit_log (date_today (ticks w))) (msg +:+ nl)].
Proof. reflexivity. Qed.
Lemma ticks_audited `{Env} msg w : ticks (audited msg w) = S (ticks w).
Proof. reflexivity. Qed.

Create Rewrite HintDb world.
Hint Rewrite trace_log trace_tick trace_written trace_appended ticks_log ticks_tick
  ticks_written ticks_appended @trace_audited @ticks_audited : world.

(** Unfolds the worlds of the stages and computes their trace and clock. *)
Ltac stage_worlds :=
  unfold main_world, finish_world, export_world, excel_exported, json_exported,
    dedup_world, validate_world, generate_world, expand_world, normalize_world,
    startup_world;
  cbn [raw_file requirements coverage_items generated_testcases valid_testcases
         rejected final_testcases];
  autorewrite with world.

Section AuditTrail.
Context `{E : Env}.

(** C7.  A run that completes appends its audit entries in this order:
    started, loaded input, normalized count, expanded count, generated
    count, the rejected count when and only when something was rejected, the
    final count, the JSON export path, the Excel export path, completed.
    They are at least nine, the last is ["Pipeline completed successfully"],
    and every one goes to an audit log [generation_trace_<date>.log]. *)
Theorem audit_trail_of_completed_run w v w' :
  main w = (Ok v, w') →
  ∃ events date_json date_excel,
    trace w' = trace w ++ events ∧
    audit_entries events =
      [ "Pipeline started" +:+ nl;
        ("Loaded raw input: " +:+ raw_file v) +:+ nl;
        ("Normalized " +:+ pretty (length (requirements v)) +:+ " requirements") +:+ nl;
        ("Expanded to " +:+ pretty (length (coverage_items v))
           +:+ " coverage intents") +:+ nl;
        ("Generated " +:+ pretty (length (generated_testcases v))
           +:+ " raw test cases") +:+ nl ]
      ++ match rejected v with
         | [] => []
         | _ => [ ("Rejected " +:+ pretty (length (rejected v))
                     +:+ " invalid test cases") +:+ nl ]
         end
      ++ [ ("Final test case count after de-duplication: "
              +:+ pretty (length (final_testcases v))) +:+ nl;
           ("Exported JSON: " +:+ abspath (json_out date_json)) +:+ nl;
           ("Exported Excel: " +:+ abspath (excel_out date_excel)) +:+ nl;
           "Pipeline completed successfully" +:+ nl ] ∧
    (9 ≤ length (audit_entries events))%nat ∧
    last (audit_entries events) = Some ("Pipeline completed successfully" +:+ nl) ∧
    Forall (λ e, ∀ p text, e = EvAppend p text → ∃ n, p = audit_log (date_today n)) events.
Proof.
  intros (w0 & raw_text & Hdirs & _ & _ & _ & _ & _ & _ & _ & ->)%main_Ok_inv.
  apply ensure_dirs_Ok in Hdirs as (Hticks & Htrace & _).
  destruct v as [raw_f reqs items cases valid [|r rej] final]; stage_worlds;
    rewrite Htrace, <- !(assoc_L (++)).
  - eexists _, _, _. (split; [reflexivity|]).
    (split; [reflexivity|]). (split; [simpl; lia|]).
    (split; [reflexivity|]).
    repeat (constructor; [intros ? ? [=]; subst; eauto|]); try constructor.
  - eexists _, _, _. (split; [reflexivity|]).
    (split; [reflexivity|]). (split; [simpl; lia|]).
    (split; [reflexivity|]).
    repeat (constructor; [intros ? ? [=]; subst; eauto|]); try constructor.
Qed.

End AuditTrail.

(** ** Which paths a step changes *)

Lemma fs_log e w : fs (log e w) = fs w.
Proof. reflexivity. Qed.

Lemma fs_tick w : fs (tick w) = fs w.
Proof. reflexivity. Qed.

Lemma fs_written_ne p c w q : q ≠ p → fs (written p c w) !! q = fs w !! q.
Proof. intros. unfold written. rewrite fs_log. cbn. by rewrite lookup_insert_ne. Qed.

Lemma fs_written_eq p c w : fs (written p c w) !! p = Some (File c).
Proof. unfold written. rewrite fs_log. cbn. by rewrite lookup_insert_eq. Qed.

Lemma fs_appended_ne p t w q : q ≠ p → fs (appended p t w) !! q = fs w !! q.
Proof. intros. unfold appended. rewrite fs_log. cbn. by rewrite lookup_insert_ne. Qed.

Lemma fs_appended_eq p t w :
  fs (appended p t w) !! p = Some (File (old_content (fs w) p +:+ t)).
Proof. unfold appended. rewrite fs_log. cbn. by rewrite lookup_insert_eq. Qed.

Lemma not_a_log_req_file : not_a_log req_file.
Proof. intros date. discriminate. Qed.

Lemma not_a_log_reject_log : not_a_log reject_log.
Proof. intros date. discriminate. Qed.

Lemma not_a_log_json_out (day : string) : not_a_log (json_out day).
Proof. intros date. discriminate. Qed.

Lemma not_a_log_excel_out (day : string) : not_a_log (excel_out day).
Proof. intros date. discriminate. Qed.

Lemma not_a_log_input name : not_a_log (os_path_join EXTRACTED_DIR name).
Proof. intros date. discriminate. Qed.

Lemma not_a_log_short q : (length q ≤ 2)%nat → not_a_log q.
Proof. intros Hq date ->. simpl in Hq. lia. Qed.

Lemma isdir_lookup2 f a b : isdir f [a; b] = true → f !! [a; b] = Some Dir.
Proof.
  unfold isdir. simpl. destruct (f !! [a]) as [[|?]|]; try done.
  by destruct (f !! [a; b]) as [[|?]|].
Qed.

Lemma isdir_lookup1 f a : isdir f [a] = true → f !! [a] = Some Dir.
Proof. unfold isdir. simpl. by destruct (f !! [a]) as [[|?]|]. Qed.

(** After [ensure_dirs] the directories of the layout are there. *)
Lemma ensure_dirs_lookup w w' :
  ensure_dirs w = (Ok tt, w') →
  fs w' !! EXTRACTED_DIR = Some Dir ∧ fs w' !! REQ_DIR = Some Dir ∧
  fs w' !! OUTPUT_JSON = Some Dir ∧ fs w' !! OUTPUT_EXCEL = Some Dir ∧
  fs w' !! AUDIT_DIR = Some Dir.
Proof.
  intros (_ & _ & Hdirs & _)%ensure_dirs_Ok.
  unfold created_dirs in Hdirs. rewrite !Forall_cons in Hdirs.
  destruct Hdirs as (H1 & H2 & H3 & H4 & H5 & _).
  split_and!; by first [apply isdir_lookup2 | apply isdir_lookup1].
Qed.

(** A path of three components is not touched by [ensure_dirs]. *)
Lemma ensure_dirs_frame3 w w' a b c :
  ensure_dirs w = (Ok tt, w') → fs w' !! [a; b; c] = fs w !! [a; b; c].
Proof.
  intros H. apply (ensure_dirs_frame _ _ _ H). intros d Hd Hpre.
  apply prefix_length in Hpre. unfold created_dirs in Hd.
  repeat (apply elem_of_cons in Hd as [->|Hd]; [simpl in Hpre; lia|]).
  by apply elem_of_nil in Hd.
Qed.

Section Frames.
Context `{E : Env}.

Lemma fs_audited_ne msg w q : not_a_log q → fs (audited msg w) !! q = fs w !! q.
Proof. intros Hq. unfold audited. by rewrite fs_appended_ne. Qed.

Lemma fs_startup_world raw_f w q :
  not_a_log q → fs (startup_world raw_f w) !! q = fs w !! q.
Proof. intros Hq. unfold startup_world. by rewrite !fs_audited_ne. Qed.

Lemma raw_text_entry_lookup (f f' : fsys) :
  (∀ name, f' !! os_path_join EXTRACTED_DIR name = f !! os_path_join EXTRACTED_DIR name) →
  ∀ name, raw_text_entry f' name ↔ raw_text_entry f name.
Proof. intros H name. unfold raw_text_entry. by rewrite H. Qed.

(** The day's audit log can be opened once the layout is there, unless a
    directory has its name. *)
Lemma ensure_dirs_auditable w w' :
  ensure_dirs w = (Ok tt, w') →
  fs w !! audit_log (date_today (ticks w)) ≠ Some Dir → auditable w'.
Proof.
  intros Hdirs Hlog. unfold auditable. apply open_for_writing_None.
  pose proof Hdirs as (Ht & _)%ensure_dirs_Ok.
  pose proof Hdirs as (_ & _ & _ & _ & Haudit)%ensure_dirs_lookup.
  rewrite Ht. split; [done|].
  unfold audit_log, os_path_join, AUDIT_DIR in *. cbn [app node_at].
  by rewrite (ensure_dirs_frame3 _ _ _ _ _ Hdirs).
Qed.

(** C1.  When the Normalizer returns an empty sequence the run aborts with
    [EmptyResultError] (exit status 1).  The world it leaves is the world
    right after the raw-text load, but for the record of the Normalizer's
    call: [requirements/normalized_requirements.json] holds what it held
    before the run, no file was opened for writing, no stage after the
    Normalizer was called, and the audit log received the two entries that
    precede normalization and no other. *)
Theorem empty_normalization_aborts w raw_text raw_f w1 :
  reaches_normalization w raw_text raw_f w1 →
  normalize_requirements raw_text = Ok [] →
  is_EmptyResultError (main w).1 ∧
  exit_status (main w).1 = 1%nat ∧
  (main w).2 = log (EvCall Normalizer) w1 ∧
  fs (main w).2 !! req_file = fs w !! req_file ∧
  ∃ events,
    trace (main w).2 = trace w ++ events ∧
    files_written events = [] ∧
    stages_called events = [Normalizer] ∧
    audit_entries events =
      [ "Pipeline started" +:+ nl; ("Loaded raw input: " +:+ raw_f) +:+ nl ].
Proof.
  intros Hreach Hnorm.
  assert (main w = (Raise (ValueError "No testable requirements found"),
                    log (EvCall Normalizer) w1)) as ->.
  { rewrite (main_from_normalization _ _ _ _ Hreach).
    unfold after_startup, normalize.
    apply bind_Raise. rewrite (bind_Ok _ _ _ [] (log (EvCall Normalizer) w1)); [done|].
    unfold call. by rewrite Hnorm. }
  apply startup_Ok_inv in Hreach as (w0 & Hdirs & _ & _ & _ & ->).
  pose proof Hdirs as (_ & Htrace & _)%ensure_dirs_Ok.
  cbn [fst snd]. split_and!; [done..| |].
  - rewrite fs_log, fs_startup_world by apply not_a_log_req_file.
    apply (ensure_dirs_frame _ _ _ Hdirs), not_prefix_created. by repeat constructor.
  - stage_worlds. rewrite Htrace, <- !(assoc_L (++)). by eexists.
Qed.

(** C5, as amended.  When the layout can be created, the day's audit log
    is not a directory and no entry of the extracted-text directory has the
    [RAW_TEXT_] prefix, the run raises [NotFoundError] with exit status 1;
    it leaves exactly one audit entry, ["Pipeline started"], written before
    the load, calls no collaborator and writes no other file. *)
Theorem missing_raw_text_aborts w w0 :
  ensure_dirs w = (Ok tt, w0) →
  fs w !! audit_log (date_today (ticks w)) ≠ Some Dir →
  (∀ name, ¬ raw_text_entry (fs w) name) →
  is_NotFoundError (main w).1 ∧
  exit_status (main w).1 = 1%nat ∧
  (main w).2 = audited "Pipeline started" w0 ∧
  ∃ events,
    trace (main w).2 = trace w ++ events ∧
    audit_entries events = [ "Pipeline started" +:+ nl ] ∧
    stages_called events = [] ∧
    files_written events = [].
Proof.
  intros Hdirs Hlog Hnone.
  pose proof (ensure_dirs_auditable _ _ Hdirs Hlog) as Haudit.
  pose proof Hdirs as (_ & Htrace & _)%ensure_dirs_Ok.
  pose proof Hdirs as (Hextracted & _)%ensure_dirs_lookup.
  set (w1 := audited "Pipeline started" w0).
  set (msg := "No RAW_TEXT file found. Run extraction first.").
  assert (load_raw_text w1 = (Raise (FileNotFoundError msg), w1)) as Hload.
  { rewrite load_raw_text_eq.
    - rewrite (proj2 (last_raw_text_files_None (fs w1))); [done|].
      intros name. unfold w1, raw_text_entry, os_path_join, EXTRACTED_DIR.
      rewrite fs_audited_ne by apply not_a_log_input. cbn [app].
      rewrite (ensure_dirs_frame3 _ _ _ _ _ Hdirs). apply Hnone.
    - unfold w1. rewrite fs_audited_ne; [done|]. by apply not_a_log_short. }
  assert (main w = (Raise (FileNotFoundError msg), w1)) as ->.
  { rewrite main_unfold. apply bind_Raise. unfold startup.
    rewrite (bind_Ok _ _ _ _ _ Hdirs).
    rewrite (bind_Ok _ _ _ _ _ (save_audit_log_Ok _ _ Haudit)).
    by apply bind_Raise. }
  cbn [fst snd]. split_and!; [by eexists|done..|].
  unfold w1. stage_worlds. rewrite Htrace. by eexists.
Qed.

End Frames.

(** ** Relations every step of a computation keeps *)

Lemma blames_bind {A B} C (m : M A) (k : A → M B) :
  blames C m → (∀ a, blames C (k a)) → blames C (m ≫= k).
Proof.
  intros Hm Hk w e w'. unfold mbind, M_bind.
  destruct (m w) as [[a|e1] w1] eqn:H1.
  - apply Hk.
  - intros [= <- <-]. by apply (Hm _ _ _ H1).
Qed.

Lemma blames_ret {A} C (a : A) : blames C (mret a : M A).
Proof. by intros w e w'. Qed.





Section Preserves.
Context `{E : Env} (I : relation world) `{!PreOrder I} (ok : path → Prop).
Hypothesis I_call : ∀ s w, I w (log (EvCall s) w).
Hypothesis I_print : ∀ line w, I w (log (EvPrint line) w).
Hypothesis I_tick : ∀ w, I w (tick w).
Hypothesis I_audited : ∀ msg w, I w (audited msg w).
Hypothesis I_written : ∀ p c w, ok p → I w (written p c w).

Lemma preserves_bind {A B} (m : M A) (k : A → M B) :
  preserves I m → (∀ a, preserves I (k a)) → preserves I (m ≫= k).
Proof.
  intros Hm Hk w r w'. unfold mbind, M_bind.
  destruct (m w) as [[a|e1] w1] eqn:H1.
  - intros H2. etrans; [by eapply Hm | by eapply Hk].
  - intros [= <- <-]. by eapply Hm.
Qed.

Lemma preserves_ret {A} (a : A) : preserves I (mret a : M A).
Proof. by intros w r w' [= _ <-]. Qed.

Lemma preserves_call {A} s (r : res A) : preserves I (call s r).
Proof. intros w r' w' [= _ <-]. apply I_call. Qed.

Lemma preserves_print line : preserves I (print line).
Proof. intros w r' w' [= _ <-]. apply I_print. Qed.

Lemma preserves_today : preserves I today_isoformat.
Proof. intros w r' w' [= _ <-]. apply I_tick. Qed.

Lemma preserves_save_audit_log msg : preserves I (save_audit_log msg).
Proof.
  intros w r w'. rewrite save_audit_log_eq.
  destruct (open_for_writing _ _); intros [= _ <-]; [apply I_tick | apply I_audited].
Qed.

Lemma preserves_write_text p c : ok p → preserves I (write_text p c).
Proof.
  intros Hp w r w'. unfold write_text.
  destruct (open_for_writing _ _); intros [= _ <-]; [done | by apply I_written].
Qed.

Hypothesis ok_json_out : ∀ date, ok (json_out date).
Hypothesis ok_excel_out : ∀ date, ok (excel_out date).

Lemma preserves_after_validation raw_f reqs items cases valid rej :
  preserves I (after_validation raw_f reqs items cases valid rej).
Proof.
  unfold after_validation, dedup, export.
  repeat first
    [ apply preserves_save_audit_log | apply preserves_ret | apply preserves_call
    | apply preserves_print | apply preserves_today
    | apply preserves_write_text; auto | apply preserves_bind; [|intros ?] ].
Qed.

Hypothesis ok_reject_log : ok reject_log.

Lemma preserves_validate cases : preserves I (validate cases).
Proof.
  unfold validate.
  apply preserves_bind; [apply preserves_call|]. intros [valid [|r rej]];
  repeat first
    [ apply preserves_save_audit_log | apply preserves_ret
    | apply preserves_write_text; auto | apply preserves_bind; [|intros ?] ].
Qed.

Lemma preserves_after_generation raw_f reqs items cases :
  preserves I (after_generation raw_f reqs items cases).
Proof.
  unfold after_generation. apply preserves_bind; [apply preserves_validate|].
  intros [valid rej]. apply preserves_after_validation.
Qed.

End Preserves.

Section Blames.
Context `{E : Env}.



End Blames.

(** ** Steps that leave some paths alone *)

Lemma files_written_app tr1 tr2 :
  files_written (tr1 ++ tr2) = files_written tr1 ++ files_written tr2.
Proof. apply omap_app. Qed.

Lemma stages_called_app tr1 tr2 :
  stages_called (tr1 ++ tr2) = stages_called tr1 ++ stages_called tr2.
Proof. apply omap_app. Qed.

Global Instance leaves_preorder P : PreOrder (leaves P).
Proof.
  split.
  - intros w. split; [done|]. exists []. by rewrite app_nil_r.
  - intros w1 w2 w3 [Hfs12 (tr1 & Htr1 & Hw1)] [Hfs23 (tr2 & Htr2 & Hw2)]. split.
    + intros q Hq. by rewrite Hfs23, Hfs12.
    + exists (tr1 ++ tr2). rewrite Htr2, Htr1, (assoc_L (++)). split; [done|].
      rewrite files_written_app. by apply Forall_app.
Qed.

Section Leaves.
Context `{E : Env} (P : path → Prop).
Hypothesis P_not_a_log : ∀ q, P q → not_a_log q.

Lemma leaves_log e w : files_written [e] = [] → leaves P w (log e w).
Proof. intros He. split; [done|]. exists [e]. by rewrite He. Qed.

Lemma leaves_tick w : leaves P w (tick w).
Proof. split; [done|]. exists []. by rewrite app_nil_r. Qed.

Lemma leaves_audited msg w : leaves P w (audited msg w).
Proof.
  split.
  - intros q Hq. by rewrite fs_audited_ne by by apply P_not_a_log.
  - eexists [_]. by rewrite trace_audited.
Qed.

Lemma leaves_written p c w : ¬ P p → leaves P w (written p c w).
Proof.
  intros Hp. split.
  - intros q Hq. rewrite fs_written_ne; [done|]. by intros ->.
  - exists [EvWrite p c]. rewrite trace_written. split; [done|]. by repeat constructor.
Qed.

(** Whatever they return, the stages after validation leave a path alone
    that is neither an export nor an audit log. *)
Lemma after_validation_leaves raw_f reqs items cases valid rej :
  (∀ date, ¬ P (json_out date)) → (∀ date, ¬ P (excel_out date)) →
  preserves (leaves P) (after_validation raw_f reqs items cases valid rej).
Proof.
  intros Hjson Hexcel.
  apply (preserves_after_validation (leaves P) (λ p, ¬ P p));
    auto using leaves_tick, leaves_audited, leaves_written.
  - intros s w. by apply leaves_log.
  - intros line w. by apply leaves_log.
Qed.

End Leaves.


Section Validation.
Context `{E : Env}.

(** The world in which validation starts, from the world [ensure_dirs]
    left. *)
Lemma reaches_validation_inv w cases w4 :
  reaches_validation w cases w4 →
  ∃ w0 raw_f reqs items,
    ensure_dirs w = (Ok tt, w0) ∧
    w4 = generate_world cases
           (expand_world items (normalize_world reqs (startup_world raw_f w0))).
Proof.
  intros (reqs & w2 & items & w3 & (raw_text & raw_f & w1 & H1 & H2) & H3 & H4).
  apply startup_Ok_inv in H1 as (w0 & Hdirs & _ & _ & _ & ->).
  apply normalize_Ok_inv in H2 as (_ & _ & _ & _ & ->).
  apply expand_Ok_inv in H3 as (_ & _ & ->).
  apply generate_Ok_inv in H4 as (_ & _ & ->).
  by exists w0, raw_f, reqs, items.
Qed.

(** Before validation a run has written [req_file] and audit entries,
    called three collaborators, and left every other path as [ensure_dirs]
    left it. *)
Lemma before_validation w cases w4 :
  reaches_validation w cases w4 →
  ∃ w0 events,
    ensure_dirs w = (Ok tt, w0) ∧
    (∀ q, not_a_log q → q ≠ req_file → fs w4 !! q = fs w0 !! q) ∧
    trace w4 = trace w ++ events ∧
    files_written events = [req_file] ∧
    stages_called events = [Normalizer; CoverageExpander; Generator].
Proof.
  intros (w0 & raw_f & reqs & items & Hdirs & ->)%reaches_validation_inv.
  pose proof Hdirs as (_ & Htrace & _)%ensure_dirs_Ok.
  eexists w0, _. split_and!; [done| | |..].
  - intros q Hlog Hreq. unfold generate_world, expand_world, normalize_world.
    unfold startup_world.
    by repeat first [ rewrite fs_log | rewrite fs_audited_ne by done
                    | rewrite fs_written_ne by done ].
  - stage_worlds. rewrite Htrace, <- !(assoc_L (++)). reflexivity.
  - reflexivity.
  - reflexivity.
Qed.

End Validation.

Section RejectLog.
Context `{E : Env}.

Lemma reject_log_not_created q :
  q = reject_log ∨ q = VALIDATION_DIR → ∀ d, d ∈ created_dirs → ¬ q `prefix_of` d.
Proof.
  intros Hq. apply not_prefix_created. destruct Hq as [-> | ->]; by repeat constructor.
Qed.

(** The validation stage when there is nothing to reject. *)
Lemma validate_none cases valid w :
  validate_testcases cases = Ok (valid, []) →
  validate cases w = (Ok (valid, []), log (EvCall Validator) w).
Proof.
  intros Hv. unfold validate.
  rewrite (bind_Ok _ _ _ (valid, []) (log (EvCall Validator) w)); [done|].
  unfold call. by rewrite Hv.
Qed.

(** The validation stage when the log of rejections cannot be opened. *)
Lemma validate_unwritable cases valid rej e w :
  validate_testcases cases = Ok (valid, rej) → rej ≠ [] →
  open_for_writing (fs w) reject_log = Some e →
  validate cases w = (Raise e, log (EvCall Validator) w).
Proof.
  intros Hv Hrej Hopen. unfold validate.
  rewrite (bind_Ok _ _ _ (valid, rej) (log (EvCall Validator) w));
    [|unfold call; by rewrite Hv].
  destruct rej as [|r rej]; [done|].
  apply bind_Raise, bind_Raise, write_text_Raise. by rewrite fs_log.
Qed.

(** The validation stage when it can: the log is written, and whatever
    comes next leaves it alone. *)
Lemma validate_writable cases valid rej w r w' :
  validate_testcases cases = Ok (valid, rej) → rej ≠ [] →
  open_for_writing (fs w) reject_log = None →
  validate cases w = (r, w') →
  leaves (λ q, q = reject_log)
    (written reject_log (json_dump rej) (log (EvCall Validator) w)) w' ∧
  (∀ a, r = Ok a → a = (valid, rej)).
Proof.
  intros Hv Hrej Hopen. unfold validate.
  rewrite (bind_Ok _ _ _ (valid, rej) (log (EvCall Validator) w));
    [|unfold call; by rewrite Hv].
  destruct rej as [|r0 rej]; [done|].
  unfold mbind, M_bind. rewrite write_text_Ok by by rewrite fs_log.
  rewrite save_audit_log_eq.
  destruct (open_for_writing (fs (written _ _ _)) _); cbv beta iota delta [mret M_ret];
    intros [= <- <-]; (split; [|by intros ? [=]]).
  - by apply leaves_tick.
  - apply leaves_audited. intros q ->. apply not_a_log_reject_log.
Qed.

(** C10.  [ensure_dirs] leaves the [validation] directory as it found it.
    So in a run that starts without it and whose Validator returns a
    non-empty rejected subset, opening [validation/reject_log.json] raises
    [FileNotFoundError]: the run aborts right after the Validator's call,
    the Deduplicator is not called, and the only file written is the
    normalized requirements (no export). *)
Theorem missing_validation_dir_aborts :
  (∀ w w', ensure_dirs w = (Ok tt, w') →
           fs w' !! VALIDATION_DIR = fs w !! VALIDATION_DIR) ∧
  ∀ w cases w4 valid rej,
    fs w !! VALIDATION_DIR = None →
    reaches_validation w cases w4 →
    validate_testcases cases = Ok (valid, rej) → rej ≠ [] →
    main w = (Raise (FileNotFoundError "[Errno 2] No such file or directory"),
              log (EvCall Validator) w4) ∧
    fs w4 !! reject_log = fs w !! reject_log ∧
    ∃ events,
      trace (log (EvCall Validator) w4) = trace w ++ events ∧
      files_written events = [req_file] ∧
      stages_called events = [Normalizer; CoverageExpander; Generator; Validator].
Proof.
  split.
  { intros w w' H. apply (ensure_dirs_frame _ _ _ H), reject_log_not_created. by right. }
  intros w cases w4 valid rej Hnone Hreach Hv Hrej.
  destruct (main_from_validation _ _ _ Hreach) as (raw_f & reqs & items & ->).
  apply before_validation in Hreach
    as (w0 & events & Hdirs & Hframe & Htrace & Hwritten & Hcalled).
  assert (∀ q, q = reject_log ∨ q = VALIDATION_DIR → fs w4 !! q = fs w !! q) as Hsame.
  { intros q Hq. rewrite Hframe.
    - apply (ensure_dirs_frame _ _ _ Hdirs). by apply reject_log_not_created.
    - destruct Hq as [-> | ->]; [apply not_a_log_reject_log | apply not_a_log_short; simpl; lia].
    - by destruct Hq as [-> | ->]. }
  split_and!.
  - unfold after_generation. apply bind_Raise.
    apply (validate_unwritable _ valid rej); [done..|].
    unfold open_for_writing, reject_log. cbn [parent removelast node_at].
    change (fs w4 !! ["validation"]) with (fs w4 !! VALIDATION_DIR).
    rewrite Hsame by by right. by rewrite Hnone.
  - apply Hsame. by left.
  - exists (events ++ [EvCall Validator]).
    rewrite trace_log, Htrace, (assoc_L (++)), files_written_app, stages_called_app.
    by rewrite Hwritten, Hcalled.
Qed.

(** C3, as amended.  For a run that reaches validation, with the rejected
    subset [rej] the Validator returns: when [rej] is empty the run does not
    write [validation/reject_log.json], which holds at the end what it held
    at the start; when [rej] is not empty and the file can be opened for
    writing, it is written once, with exactly the dump of [rej], and holds
    it at the end of the run; when [rej] is not empty and the file cannot be
    opened, the run aborts with the exception of [open] and the file is not
    written. *)
Theorem reject_log_written_when_rejections w cases w4 valid rej r w' :
  reaches_validation w cases w4 →
  validate_testcases cases = Ok (valid, rej) →
  main w = (r, w') →
  (rej = [] →
     fs w' !! reject_log = fs w !! reject_log ∧
     ∃ events, trace w' = trace w ++ events ∧ (reject_log ∉ files_written events)) ∧
  (rej ≠ [] → open_for_writing (fs w4) reject_log = None →
     fs w' !! reject_log = Some (File (json_dump rej)) ∧
     ∃ before after,
       trace w' = trace w ++ (before ++ [EvWrite reject_log (json_dump rej)] ++ after) ∧
       (reject_log ∉ files_written before) ∧ (reject_log ∉ files_written after)) ∧
  (rej ≠ [] → ∀ e, open_for_writing (fs w4) reject_log = Some e →
     r = Raise e ∧
     fs w' !! reject_log = fs w !! reject_log ∧
     ∃ events, trace w' = trace w ++ events ∧ (reject_log ∉ files_written events)).
Proof.
  intros Hreach Hv.
  destruct (main_from_validation _ _ _ Hreach) as (raw_f & reqs & items & ->).
  apply before_validation in Hreach
    as (w0 & events & Hdirs & Hframe & Htrace & Hwritten & Hcalled).
  assert (fs w4 !! reject_log = fs w !! reject_log) as Hsame.
  { rewrite Hframe; [|apply not_a_log_reject_log|done].
    apply (ensure_dirs_frame _ _ _ Hdirs), reject_log_not_created. by left. }
  assert (reject_log ∉ files_written events) as Hbefore.
  { rewrite Hwritten. intros Hin%list_elem_of_singleton. discriminate Hin. }
  assert (∀ raw_f reqs items cases valid rej w5 r w',
            after_validation raw_f reqs items cases valid rej w5 = (r, w') →
            leaves (λ q, q = reject_log) w5 w') as Hafter.
  { intros ????????? H. eapply after_validation_leaves; [..|exact H].
    - intros q ->. apply not_a_log_reject_log.
    - intros date. discriminate.
    - intros date. discriminate. }
  assert (∀ evs, Forall (λ q, q ≠ reject_log) (files_written evs) →
                 reject_log ∉ files_written evs) as Hnotin.
  { intros evs Hall Hin. rewrite Forall_forall in Hall. by apply (Hall _ Hin). }
  unfold after_generation. intros Hrun. split_and!.
  - intros ->. rewrite (bind_Ok _ _ _ _ _ (validate_none _ _ _ Hv)) in Hrun.
    apply Hafter in Hrun as [Hfs (evs & Hevs & Hall)]. split.
    + by rewrite Hfs, fs_log.
    + exists (events ++ [EvCall Validator] ++ evs).
      rewrite Hevs, trace_log, Htrace, <- !(assoc_L (++)). split; [done|].
      rewrite !files_written_app, !elem_of_app.
      intros [?|[Hin|?]]; [done|by apply elem_of_nil in Hin|by apply (Hnotin evs)].
  - intros Hrej Hopen. unfold mbind, M_bind in Hrun.
    destruct (validate cases w4) as [r5 w5] eqn:H5.
    destruct (validate_writable _ _ _ _ _ _ Hv Hrej Hopen H5) as [Hl5 Hr5].
    assert (leaves (λ q, q = reject_log)
              (written reject_log (json_dump rej) (log (EvCall Validator) w4)) w')
      as [Hfs (evs & Hevs & Hall)].
    { destruct r5 as [[v5 rej5]|e5].
      - etrans; [exact Hl5|]. by eapply Hafter.
      - by injection Hrun as <- <-. }
    split.
    + by rewrite Hfs, fs_written_eq.
    + exists (events ++ [EvCall Validator]), evs.
      rewrite Hevs, trace_written, trace_log, Htrace, <- !(assoc_L (++)).
      split_and!; [done| |by apply Hnotin].
      rewrite files_written_app, elem_of_app.
      intros [?|Hin]; [done|by apply elem_of_nil in Hin].
  - intros Hrej e Hopen.
    rewrite (bind_Raise _ _ _ _ _ (validate_unwritable _ _ _ _ _ Hv Hrej Hopen)) in Hrun.
    injection Hrun as <- <-. split_and!; [done|by rewrite fs_log|].
    exists (events ++ [EvCall Validator]).
    rewrite trace_log, Htrace, (assoc_L (++)). split; [done|].
    rewrite files_written_app, elem_of_app.
    intros [?|Hin]; [done|by apply elem_of_nil in Hin].
Qed.

End RejectLog.

Section Expansion.
Context `{E : Env}.




End Expansion.

(** ** The lengths of the three sequences of test cases *)

Lemma spec_validate_length {T} (verdict : T → option string) cases :
  (length (spec_validate verdict cases).1 ≤ length cases)%nat.
Proof. unfold spec_validate. cbn [fst]. apply length_filter. Qed.

Lemma spec_deduplicate_length {T} (dup : T → T → bool) cases :
  (length (spec_deduplicate dup cases) ≤ length cases)%nat.
Proof.
  unfold spec_deduplicate.
  enough (∀ kept, length (foldl (λ kept t, if existsb (dup t) kept then kept
                                          else kept ++ [t]) kept cases)
                  ≤ length kept + length cases)%nat as H by apply (H []).
  induction cases as [|t cases IH]; intros kept; simpl; [lia|].
  destruct (existsb (dup t) kept).
  - etrans; [apply IH|]. lia.
  - etrans; [apply IH|]. rewrite length_app. simpl. lia.
Qed.

(** C6.  With the Validator and the Deduplicator of the spec, every run
    that completes has
    len(final_testcases) <= len(valid_testcases) <= len(generated_testcases). *)
Theorem final_no_longer_than_valid (E : Env) verdict dup json_rej w v w' :
  @main (spec_env E verdict dup json_rej) w = (Ok v, w') →
  (length (final_testcases v) ≤ length (valid_testcases v))%nat ∧
  (length (valid_testcases v) ≤ length (generated_testcases v))%nat.
Proof.
  intros (_ & _ & _ & _ & _ & _ & _ & _ & Hval & Hded & _)%main_Ok_inv.
  cbn [validate_testcases deduplicate spec_env] in Hval, Hded.
  injection Hval as Hvalid Hrej. injection Hded as Hfinal. split.
  - rewrite <- Hfinal. apply spec_deduplicate_length.
  - rewrite <- Hvalid. apply (spec_validate_length verdict).
Qed.

(** ** Running again on what a run left *)

Lemma node_at_same_dirs f f' q :
  same_dirs f f' → node_at f q = Some Dir ↔ node_at f' q = Some Dir.
Proof. intros H. destruct q; [done|apply H]. Qed.

Lemma open_for_writing_same_dirs f f' p :
  same_dirs f f' → open_for_writing f p = None → open_for_writing f' p = None.
Proof.
  intros H. rewrite !open_for_writing_None.
  by rewrite (node_at_same_dirs f f' (parent p) H), (node_at_same_dirs f f' p H).
Qed.

Lemma open_for_writing_not_dir f p : open_for_writing f p = None → f !! p ≠ Some Dir.
Proof. intros [_ H]%open_for_writing_None. by destruct p. Qed.

Lemma isdir_from_same_dirs rest : ∀ base f f',
  same_dirs f f' → isdir_from base rest f = isdir_from base rest f'.
Proof.
  induction rest as [|n rest IH]; intros base f f' H; simpl; [done|].
  pose proof (H (base ++ [n])) as Hn.
  destruct (f !! (base ++ [n])) as [[|c]|], (f' !! (base ++ [n])) as [[|c']|];
    try done; try (by apply IH);
    try (by pose proof (proj1 Hn eq_refl)); by pose proof (proj2 Hn eq_refl).
Qed.

Lemma layout_same_dirs f f' : same_dirs f f' → layout f → layout f'.
Proof.
  intros H Hl. unfold layout, isdir in *. eapply Forall_impl; [exact Hl|].
  intros d Hd. cbv beta in *. by rewrite <- (isdir_from_same_dirs d [] f f' H).
Qed.

Lemma same_dirs_insert_file f p c : f !! p ≠ Some Dir → same_dirs f (<[p := File c]> f).
Proof.
  intros Hp q. destruct (decide (q = p)) as [->|Hq].
  - rewrite lookup_insert_eq. by split.
  - by rewrite lookup_insert_ne.
Qed.

Lemma alike_refl w : layout (fs w) → alike w w.
Proof. by intros H. Qed.

Lemma alike_sym w w' : alike w w' → alike w' w.
Proof.
  intros (Hl & Hd & Hi). split_and!.
  - by apply (layout_same_dirs (fs w)).
  - intros q. by rewrite (Hd q).
  - intros name. by rewrite (Hi name).
Qed.

Lemma alike_trans w1 w2 w3 : alike w1 w2 → alike w2 w3 → alike w1 w3.
Proof.
  intros (Hl & Hd & Hi) (_ & Hd' & Hi'). split_and!; [done|..].
  - intros q. by rewrite (Hd q).
  - intros name. by rewrite (Hi name).
Qed.

Lemma alike_same_fs w w1 : layout (fs w) → fs w1 = fs w → alike w w1.
Proof. intros Hl Hfs. split_and!; [done|intros q|intros name]; by rewrite Hfs. Qed.

Lemma alike_insert_file w w1 p c :
  layout (fs w) → fs w !! p ≠ Some Dir →
  (∀ name, p ≠ os_path_join EXTRACTED_DIR name) →
  fs w1 = <[p := File c]> (fs w) → alike w w1.
Proof.
  intros Hl Hp Hin Hfs. split_and!; [done|..]; rewrite Hfs.
  - by apply same_dirs_insert_file.
  - intros name. by rewrite lookup_insert_ne.
Qed.

Lemma faithful_bind {A B} (m : M A) (k : A → M B) :
  faithful m → (∀ a, faithful (k a)) → faithful (m ≫= k).
Proof.
  intros Hm Hk w w' b w2 Hww' (a & w1 & H1 & H2)%bind_Ok_inv.
  destruct (Hm _ _ _ _ Hww' H1) as (Hw1 & w1' & H1' & Hw1').
  assert (alike w1 w1') as H11'.
  { apply (alike_trans _ w); [by apply alike_sym|]. by apply (alike_trans _ w'). }
  destruct (Hk _ _ _ _ _ H11' H2) as (Hw2 & w2' & H2' & Hw2').
  split; [by apply (alike_trans _ w1)|]. exists w2'. split.
  - by rewrite (bind_Ok _ _ _ _ _ H1').
  - by apply (alike_trans _ w1').
Qed.

Lemma faithful_unchanged {A} (m : M A) :
  (∀ w a w1, m w = (Ok a, w1) → fs w1 = fs w) →
  (∀ w w' a w1, alike w w' → m w = (Ok a, w1) → ∃ w1', m w' = (Ok a, w1')) →
  faithful m.
Proof.
  intros Hfs Hrun w w' a w1 Hww' H1. destruct (Hrun _ _ _ _ Hww' H1) as [w1' H1'].
  destruct Hww' as (Hl & Hd & Hi). split.
  - apply alike_same_fs; [done|]. by eapply Hfs.
  - exists w1'. split; [done|]. apply alike_same_fs; [|by eapply Hfs].
    by apply (layout_same_dirs (fs w)).
Qed.

Lemma faithful_ret {A} (a : A) : faithful (mret a : M A).
Proof.
  apply faithful_unchanged.
  - by intros w a' w1 [= _ <-].
  - intros w w' a' w1 _ [= <- _]. by eexists.
Qed.

Lemma faithful_raise {A} e : faithful (raise e : M A).
Proof. by intros w w' a w1 _ [=]. Qed.

Lemma faithful_call {A} s (r : res A) : faithful (call s r).
Proof.
  apply faithful_unchanged.
  - by intros w a w1 [= _ <-].
  - intros w w' a w1 _ [= -> _]. by eexists.
Qed.

Lemma faithful_print line : faithful (print line).
Proof.
  apply faithful_unchanged.
  - by intros w a w1 [= _ <-].
  - intros w w' a w1 _ [= <- _]. by eexists.
Qed.

Lemma faithful_write_text p c :
  (∀ name, p ≠ os_path_join EXTRACTED_DIR name) → faithful (write_text p c).
Proof.
  intros Hp w w' u w1 Hww' [Hopen ->]%write_text_Ok_inv.
  pose proof Hww' as (Hl & Hd & Hi). split.
  - apply (alike_insert_file _ _ p c); [done|by apply open_for_writing_not_dir|done..].
  - exists (written p c w'). destruct u. split.
    + by apply write_text_Ok, (open_for_writing_same_dirs (fs w)).
    + apply (alike_insert_file _ _ p c); [|
        by apply open_for_writing_not_dir, (open_for_writing_same_dirs (fs w))|done..].
      by apply (layout_same_dirs (fs w)).
Qed.

Lemma faithful_append_text p t :
  (∀ name, p ≠ os_path_join EXTRACTED_DIR name) → faithful (append_text p t).
Proof.
  intros Hp w w' u w1 Hww'. unfold append_text.
  destruct (open_for_writing (fs w) p) eqn:Hopen; [done|]. intros [= <- <-].
  pose proof Hww' as (Hl & Hd & Hi).
  pose proof (open_for_writing_same_dirs _ _ _ Hd Hopen) as Hopen'. split.
  - eapply alike_insert_file; [done|by apply open_for_writing_not_dir|done..].
  - exists (appended p t w'). rewrite Hopen'. split; [done|].
    eapply alike_insert_file; [|by apply open_for_writing_not_dir|done..].
    by apply (layout_same_dirs (fs w)).
Qed.

Lemma faithful_ensure_dirs : faithful ensure_dirs.
Proof.
  intros w w' u w1 Hww' H1. pose proof Hww' as (Hl & Hd & Hi).
  rewrite (ensure_dirs_isdir w Hl) in H1. injection H1 as <- <-.
  pose proof (layout_same_dirs _ _ Hd Hl) as Hl'.
  split; [by apply alike_refl|]. exists w'. split; [by apply ensure_dirs_isdir|].
  by apply alike_refl.
Qed.

Lemma raw_text_entry_same_input f f' name :
  same_input f f' → raw_text_entry f name ↔ raw_text_entry f' name.
Proof. intros H. unfold raw_text_entry. by rewrite (H name). Qed.

Lemma last_raw_text_files_same_input f f' :
  same_input f f' → last (raw_text_files f') = last (raw_text_files f).
Proof.
  intros H. destruct (last (raw_text_files f)) as [latest|] eqn:Hlast.
  - apply last_raw_text_files_Some. apply last_raw_text_files_Some in Hlast as [Hin Hmax].
    split; [by apply (raw_text_entry_same_input f)|].
    intros name Hname. by apply Hmax, (raw_text_entry_same_input f f').
  - apply last_raw_text_files_None. intros name Hname.
    apply (proj1 (last_raw_text_files_None f) Hlast name).
    by apply (raw_text_entry_same_input f f').
Qed.

Lemma layout_extracted_dir f : layout f → f !! EXTRACTED_DIR = Some Dir.
Proof. intros Hl. apply isdir_lookup2. by apply Forall_cons_1 in Hl as [? _]. Qed.

Lemma faithful_load_raw_text : faithful load_raw_text.
Proof.
  apply faithful_unchanged.
  - intros w a w1 H. by apply load_raw_text_world in H as ->.
  - intros w w' [text latest] w1 (Hl & Hd & Hi) H1.
    pose proof (layout_same_dirs _ _ Hd Hl) as Hl'.
    rewrite load_raw_text_eq in H1 by by apply layout_extracted_dir.
    exists w'. rewrite load_raw_text_eq by by apply layout_extracted_dir.
    rewrite (last_raw_text_files_same_input _ _ Hi).
    destruct (last (raw_text_files (fs w))) as [latest'|]; [|done].
    rewrite <- (Hi latest').
    destruct (fs w !! os_path_join EXTRACTED_DIR latest') as [[|text']|]; [done| |done].
    by injection H1 as -> -> _.
Qed.

Section SameDay.
Context `{E : Env} (day : string).
Hypothesis today : ∀ n, date_today n = day.

Lemma faithful_today : faithful today_isoformat.
Proof.
  apply faithful_unchanged.
  - by intros w a w1 [= _ <-].
  - intros w w' a w1 _ [= <- _]. exists (tick w'). unfold today_isoformat.
    by rewrite !today.
Qed.

Lemma faithful_save_audit_log msg : faithful (save_audit_log msg).
Proof.
  unfold save_audit_log. apply faithful_bind; [apply faithful_today|].
  intros date. apply faithful_append_text. intros name. discriminate.
Qed.

(** On one calendar day, [main] is faithful. *)
Lemma faithful_main : faithful main.
Proof.
  unfold main, startup, normalize, expand, generate, validate, dedup, export.
  repeat first
    [ apply faithful_save_audit_log | apply faithful_ret | apply faithful_raise
    | apply faithful_call | apply faithful_print | apply faithful_today
    | apply faithful_ensure_dirs | apply faithful_load_raw_text
    | apply faithful_write_text; intros name; discriminate
    | match goal with |- faithful (let '(_, _) := ?x in _) => destruct x end
    | match goal with |- faithful (match ?x with [] => _ | _ => _ end) => destruct x end
    | apply faithful_bind; [|intros ?] ].
Qed.

Lemma audited_day msg w : audited msg w = appended (audit_log day) (msg +:+ nl) (tick w).
Proof. unfold audited. by rewrite today. Qed.

Lemma json_exported_day final w :
  json_exported final w =
    appended (audit_log day) (("Exported JSON: " +:+ abspath (json_out day)) +:+ nl)
      (tick (written (json_out day) (json_dump final) (tick w))).
Proof. unfold json_exported. by rewrite audited_day, today. Qed.

Lemma excel_exported_day final w :
  excel_exported final w =
    appended (audit_log day) (("Exported Excel: " +:+ abspath (excel_out day)) +:+ nl)
      (tick (written (excel_out day) (to_excel final) (tick w))).
Proof. unfold excel_exported. by rewrite audited_day, today. Qed.

(** What a completed run leaves at each path other than the day's log. *)
Lemma fs_main_world v w q :
  q ≠ audit_log day →
  fs (main_world v w) !! q =
    if decide (q = excel_out day) then Some (File (to_excel (final_testcases v)))
    else if decide (q = json_out day) then Some (File (json_dump (final_testcases v)))
    else if decide (q = reject_log) then
      match rejected v with
      | [] => fs w !! q
      | _ => Some (File (json_dump (rejected v)))
      end
    else if decide (q = req_file) then Some (File (json_dump (requirements v)))
    else fs w !! q.
Proof.
  intros Hlog. destruct v as [raw_f reqs items cases valid rej final].
  unfold main_world, finish_world, export_world, dedup_world, validate_world,
    generate_world, expand_world, normalize_world, startup_world.
  cbn [raw_file requirements coverage_items generated_testcases valid_testcases
         rejected final_testcases].
  rewrite excel_exported_day, json_exported_day.
  destruct rej as [|r rej]; rewrite !audited_day;
    repeat case_decide; subst;
    repeat first
      [ rewrite fs_log | rewrite fs_tick | rewrite fs_written_eq
      | rewrite fs_written_ne by done | rewrite fs_appended_ne by done ];
    done.
Qed.

(** The day's log is a file once a run has completed. *)
Lemma fs_main_world_log v w : ∃ c, fs (main_world v w) !! audit_log day = Some (File c).
Proof.
  unfold main_world, finish_world. rewrite fs_log, audited_day, fs_appended_eq.
  by eexists.
Qed.

Lemma main_after_ensure_dirs w w0 : ensure_dirs w = (Ok tt, w0) → main w0 = main w.
Proof.
  intros Hdirs.
  assert (ensure_dirs w0 = (Ok tt, w0)) as Hidem.
  { apply ensure_dirs_isdir. by apply ensure_dirs_Ok in Hdirs as (_ & _ & ? & _). }
  assert (startup w0 = startup w) as Hstart.
  { unfold startup. by rewrite (bind_Ok _ _ _ _ _ Hdirs), (bind_Ok _ _ _ _ _ Hidem). }
  rewrite !main_unfold. unfold mbind, M_bind. by rewrite Hstart.
Qed.

(** C9.  On one calendar day, a run that completed can be run again on
    what it left: the second run completes with the same values, the
    normalized requirements and the two exports hold what the first run
    wrote, every path but the day's audit log holds what it held, and no new
    path appears. *)
Theorem same_day_rerun_overwrites w v w1 :
  main w = (Ok v, w1) →
  ∃ w2,
    main w1 = (Ok v, w2) ∧
    fs w1 !! req_file = Some (File (json_dump (requirements v))) ∧
    fs w1 !! json_out day = Some (File (json_dump (final_testcases v))) ∧
    fs w1 !! excel_out day = Some (File (to_excel (final_testcases v))) ∧
    (∀ q, q ≠ audit_log day → fs w2 !! q = fs w1 !! q) ∧
    (∀ q, is_Some (fs w2 !! q) ↔ is_Some (fs w1 !! q)).
Proof.
  intros Hrun.
  pose proof Hrun as (w0 & _ & Hdirs & _ & _ & _ & _ & _ & _ & _ & Hw1)%main_Ok_inv.
  rewrite <- (main_after_ensure_dirs _ _ Hdirs) in Hrun.
  assert (layout (fs w0)) as Hl by by apply ensure_dirs_Ok in Hdirs as (_ & _ & ? & _).
  destruct (faithful_main _ _ _ _ (alike_refl _ Hl) Hrun) as [H01 _].
  destruct (faithful_main _ _ _ _ H01 Hrun) as (_ & w2 & Hrun2 & _).
  exists w2. split; [done|].
  pose proof Hrun2 as (w1' & _ & Hdirs2 & _ & _ & _ & _ & _ & _ & _ & Hw2)%main_Ok_inv.
  rewrite ensure_dirs_isdir in Hdirs2 by by destruct (alike_sym _ _ H01).
  injection Hdirs2 as <-.
  assert (∀ q, q ≠ audit_log day → fs w2 !! q = fs w1 !! q) as Hsame.
  { intros q Hq. rewrite Hw2, (fs_main_world v w1) by done.
    pose proof (fs_main_world v w0 q Hq) as H0. rewrite <- Hw1 in H0.
    repeat case_decide; try done. by destruct (rejected v). }
  rewrite Hw1. split_and!.
  - rewrite fs_main_world by discriminate. by repeat case_decide.
  - rewrite fs_main_world by discriminate. by repeat case_decide.
  - rewrite fs_main_world by discriminate. by repeat case_decide.
  - by rewrite <- Hw1.
  - intros q. destruct (decide (q = audit_log day)) as [->|Hq].
    + destruct (fs_main_world_log v w0) as [c ->].
      rewrite Hw2. destruct (fs_main_world_log v w1) as [c' ->]. by split; eexists.
    + rewrite <- Hw1. by rewrite Hsame.
Qed.

End SameDay.

(** ** Relations every step of a whole run keeps *)

Section Keeps.
Context `{E : Env} (I : relation world) `{!PreOrder I}.
Hypothesis I_call : ∀ s w, I w (log (EvCall s) w).
Hypothesis I_print : ∀ line w, I w (log (EvPrint line) w).
Hypothesis I_tick : ∀ w, I w (tick w).
Hypothesis I_makedirs : ∀ d w f',
  d ∈ created_dirs → makedirs_from [] d (fs w) = Ok f' → I w (set_fs f' w).
Hypothesis I_written : ∀ q content w,
  output_file q → open_for_writing (fs w) q = None → I w (written q content w).
Hypothesis I_appended : ∀ q text w,
  audit_file q → open_for_writing (fs w) q = None → I w (appended q text w).

Lemma keeps_raise {A} e : preserves I (raise e : M A).
Proof. by intros w r w' [= _ <-]. Qed.

Lemma keeps_today_bind {B} (k : string → M B) :
  (∀ n, preserves I (k (date_today n))) → preserves I (today_isoformat ≫= k).
Proof.
  intros Hk w r w' Hrun. unfold mbind, M_bind, today_isoformat in Hrun.
  etrans; [apply I_tick | by eapply Hk].
Qed.

Lemma keeps_write_text q content : output_file q → preserves I (write_text q content).
Proof.
  intros Hq w r w'. unfold write_text.
  destruct (open_for_writing _ _) eqn:Hopen; intros [= _ <-]; [done | by apply I_written].
Qed.

Lemma keeps_append_text q text : audit_file q → preserves I (append_text q text).
Proof.
  intros Hq w r w'. unfold append_text.
  destruct (open_for_writing _ _) eqn:Hopen; intros [= _ <-]; [done | by apply I_appended].
Qed.

Lemma keeps_save_audit_log msg : preserves I (save_audit_log msg).
Proof.
  unfold save_audit_log. apply keeps_today_bind. intros n.
  apply keeps_append_text. by exists n.
Qed.

Lemma keeps_os_makedirs d : d ∈ created_dirs → preserves I (os_makedirs d).
Proof.
  intros Hd w r w'. unfold os_makedirs.
  destruct (makedirs_from _ _ _) eqn:Hmk; intros [= _ <-]; [by apply (I_makedirs d) | done].
Qed.

Lemma keeps_for_each_makedirs ds :
  ds ⊆ created_dirs → preserves I (for_each ds os_makedirs).
Proof.
  induction ds as [|d ds IH]; intros Hds; cbn [for_each].
  - apply preserves_ret, _.
  - apply preserves_bind; [done| |intros _].
    + apply keeps_os_makedirs, Hds. by left.
    + apply IH. intros x Hx. apply Hds. by right.
Qed.

Lemma keeps_ensure_dirs : preserves I ensure_dirs.
Proof. by apply keeps_for_each_makedirs. Qed.

Lemma keeps_load_raw_text : preserves I load_raw_text.
Proof. intros w r w' Hrun. by rewrite (load_raw_text_world _ _ _ Hrun). Qed.

Lemma keeps_startup : preserves I startup.
Proof.
  unfold startup.
  apply preserves_bind; [done|apply keeps_ensure_dirs|intros _].
  apply preserves_bind; [done|apply keeps_save_audit_log|intros _].
  apply preserves_bind; [done|apply keeps_load_raw_text|intros [raw_text raw_f]].
  apply preserves_bind; [done|apply keeps_save_audit_log|intros _].
  by apply preserves_ret.
Qed.

Lemma keeps_normalize_rest (reqs : list Requirement) :
  preserves I
    (match reqs with
     | [] => raise (ValueError "No testable requirements found")
     | _ =>
         write_text req_file (json_dump reqs);;
         save_audit_log ("Normalized " +:+ pretty (length reqs) +:+ " requirements");;
         mret reqs
     end).
Proof.
  destruct reqs; [apply keeps_raise|].
  apply preserves_bind; [done|apply keeps_write_text; by left|intros _].
  apply preserves_bind; [done|apply keeps_save_audit_log|intros _].
  by apply preserves_ret.
Qed.

Lemma keeps_normalize raw_text : preserves I (normalize raw_text).
Proof.
  unfold normalize.
  apply preserves_bind; [done|by apply preserves_call|intros reqs].
  apply keeps_normalize_rest.
Qed.

Lemma keeps_audit_ret {A} msg (a : A) : preserves I (save_audit_log msg;; mret a).
Proof.
  apply preserves_bind; [done|apply keeps_save_audit_log|intros _].
  by apply preserves_ret.
Qed.

Lemma keeps_expand reqs : preserves I (expand reqs).
Proof.
  unfold expand.
  apply preserves_bind; [done|by apply preserves_call|intros items].
  apply keeps_audit_ret.
Qed.

Lemma keeps_generate items : preserves I (generate items).
Proof.
  unfold generate.
  apply preserves_bind; [done|by apply preserves_call|intros cases].
  apply keeps_audit_ret.
Qed.

Lemma keeps_validate_rest (valid : list TestCase) (rej : list Rejected) :
  preserves I
    (match rej with
     | [] => mret tt
     | _ =>
         write_text reject_log (json_dump rej);;
         save_audit_log ("Rejected " +:+ pretty (length rej) +:+ " invalid test cases")
     end;;
     mret (valid, rej)).
Proof.
  apply preserves_bind; [done| |intros _; by apply preserves_ret].
  destruct rej; [by apply preserves_ret|].
  apply preserves_bind; [done|apply keeps_write_text; by right; left|intros _].
  apply keeps_save_audit_log.
Qed.

Lemma keeps_validate cases : preserves I (validate cases).
Proof.
  unfold validate.
  apply preserves_bind; [done|by apply preserves_call|intros [valid rej]].
  apply keeps_validate_rest.
Qed.

Lemma keeps_dedup valid : preserves I (dedup valid).
Proof.
  unfold dedup.
  apply preserves_bind; [done|by apply preserves_call|intros final].
  apply keeps_audit_ret.
Qed.

Lemma keeps_export final : preserves I (export final).
Proof.
  unfold export.
  apply keeps_today_bind. intros n.
  apply preserves_bind; [done|apply keeps_write_text; right; right; left; by exists n|intros _].
  apply preserves_bind; [done|apply keeps_save_audit_log|intros _].
  apply keeps_today_bind. intros n'.
  apply preserves_bind; [done|apply keeps_write_text; right; right; right; by exists n'|intros _].
  apply keeps_save_audit_log.
Qed.

(** [main] up to the last audit entry, without the printed line. *)
Lemma keeps_after_validation_rest final :
  preserves I (export final;; save_audit_log "Pipeline completed successfully").
Proof.
  apply preserves_bind; [done|apply keeps_export|intros _]. apply keeps_save_audit_log.
Qed.

Lemma keeps_main : preserves I main.
Proof.
  unfold main.
  apply preserves_bind; [done|apply keeps_startup|intros [raw_text raw_f]].
  apply preserves_bind; [done|apply keeps_normalize|intros reqs].
  apply preserves_bind; [done|apply keeps_expand|intros items].
  apply preserves_bind; [done|apply keeps_generate|intros cases].
  apply preserves_bind; [done|apply keeps_validate|intros [valid rej]].
  apply preserves_bind; [done|apply keeps_dedup|intros final].
  apply preserves_bind; [done|apply keeps_export|intros _].
  apply preserves_bind; [done|apply keeps_save_audit_log|intros _].
  apply preserves_bind; [done|by apply preserves_print|intros _].
  by apply preserves_ret.
Qed.

End Keeps.

(** ** Strings put end to end *)

Lemma string_app_cons a (s t : string) : String a s +:+ t = String a (s +:+ t).
Proof. reflexivity. Qed.

Lemma string_app_nil_l (s : string) : "" +:+ s = s.
Proof. reflexivity. Qed.

Lemma string_app_nil_r (s : string) : s +:+ "" = s.
Proof. induction s as [|a s IH]; [done|]. rewrite !string_app_cons. simpl. by f_equal. Qed.

Lemma string_app_assoc (s t u : string) : (s +:+ t) +:+ u = s +:+ (t +:+ u).
Proof. induction s as [|a s IH]; [done|]. rewrite !string_app_cons. simpl. by f_equal. Qed.

Lemma string_app_length (s t : string) :
  String.length (s +:+ t) = (String.length s + String.length t)%nat.
Proof. induction s as [|a s IH]; [done|]. rewrite !string_app_cons. simpl. by f_equal. Qed.

Lemma string_app_inj_l (s1 s2 t : string) : s1 +:+ t = s2 +:+ t → s1 = s2.
Proof.
  revert s2. induction s1 as [|a s1 IH]; intros [|b s2] Heq; [done|..].
  - apply (f_equal String.length) in Heq.
    rewrite !string_app_length in Heq. simpl in Heq. lia.
  - apply (f_equal String.length) in Heq.
    rewrite !string_app_length in Heq. simpl in Heq. lia.
  - rewrite !string_app_cons in Heq. injection Heq as -> Heq. f_equal. by apply IH.
Qed.

(** The date-stamped names tell the days apart. *)
Lemma audit_log_inj (day day' : string) : audit_log day = audit_log day' → day = day'.
Proof.
  intros [= Heq]. by apply (string_app_inj_l day day' ".log").
Qed.

Lemma json_out_inj (day day' : string) : json_out day = json_out day' → day = day'.
Proof.
  intros [= Heq]. by apply (string_app_inj_l day day' ".json").
Qed.

Lemma excel_out_inj (day day' : string) : excel_out day = excel_out day' → day = day'.
Proof.
  intros [= Heq]. by apply (string_app_inj_l day day' ".xlsx").
Qed.

(** ** What a run changes in the file system *)

Lemma layout_dir_short q : layout_dir q → (length q ≤ 2)%nat.
Proof.
  intros [_ (d & Hd & Hq)]. apply prefix_length in Hq.
  unfold created_dirs in Hd. rewrite !elem_of_cons, elem_of_nil in Hd.
  destruct Hd as [->|[->|[->|[->|[->|[]]]]]]; cbn in Hq; lia.
Qed.

Lemma not_a_log_layout_dir q : layout_dir q → not_a_log q.
Proof. intros Hq. by apply not_a_log_short, layout_dir_short. Qed.

Lemma not_a_log_output_file `{Env} q : output_file q → not_a_log q.
Proof.
  intros [->|[->|[[n ->]|[n ->]]]].
  - apply not_a_log_req_file.
  - apply not_a_log_reject_log.
  - apply not_a_log_json_out.
  - apply not_a_log_excel_out.
Qed.

Lemma old_content_lookup f f' q : f' !! q = f !! q → old_content f' q = old_content f q.
Proof. unfold old_content. by intros ->. Qed.

Global Instance touches_preorder `{Env} : PreOrder touches.
Proof.
  split.
  - intros w q. by left.
  - intros w1 w2 w3 H12 H23 q.
    destruct (H23 q) as [Heq|[(Hq & Hnone & Hdir)|[(Hq & Hnd & c & Hc)|(Hq & Hnd & t & Ht)]]];
      destruct (H12 q) as
        [Heq'|[(Hq' & Hnone' & Hdir')|[(Hq' & Hnd' & c' & Hc')|(Hq' & Hnd' & t' & Ht')]]];
      try congruence.
    + left. congruence.
    + right; left. split_and!; congruence.
    + right; right; left. split_and!; [done..|]. exists c'. congruence.
    + right; right; right. split_and!; [done..|]. exists t'. congruence.
    + right; left. split_and!; congruence.
    + right; right; left. split_and!; [done|congruence|by exists c].
    + right; right; left. split_and!; [done..|]. by exists c.
    + right; right; left. split_and!; [done..|]. by exists c.
    + right; right; right. split_and!; [done|congruence|].
      exists t. rewrite Ht. by rewrite (old_content_lookup _ _ _ Heq').
    + right; right; left. split_and!; [done..|]. by eexists.
    + right; right; right. split_and!; [done..|].
      exists (t' +:+ t). rewrite Ht. unfold old_content at 1. rewrite Ht'.
      by rewrite string_app_assoc.
Qed.

Section Touches.
Context `{E : Env}.

Lemma touches_same_fs w w' : fs w' = fs w → touches w w'.
Proof. intros Hfs q. left. by rewrite Hfs. Qed.

Lemma touches_makedirs d w f' :
  d ∈ created_dirs → makedirs_from [] d (fs w) = Ok f' → touches w (set_fs f' w).
Proof.
  intros Hd Hmk q. destruct (makedirs_from_Ok _ _ _ _ Hmk) as (_ & _ & Hq).
  destruct (Hq q) as [Heq|(Hnone & Hdir & Hpre & Hlen)]; [by left|].
  right; left. split_and!; [|done..]. split; [intros ->; cbn in Hlen; lia|]. by exists d.
Qed.

Lemma touches_written q content w :
  output_file q → open_for_writing (fs w) q = None → touches w (written q content w).
Proof.
  intros Hq Hopen q'. destruct (decide (q' = q)) as [->|Hne].
  - right; right; left. split_and!; [done|by apply open_for_writing_not_dir|].
    exists content. apply fs_written_eq.
  - left. by apply fs_written_ne.
Qed.

Lemma touches_appended q text w :
  audit_file q → open_for_writing (fs w) q = None → touches w (appended q text w).
Proof.
  intros Hq Hopen q'. destruct (decide (q' = q)) as [->|Hne].
  - right; right; right. split_and!; [done|by apply open_for_writing_not_dir|].
    exists text. apply fs_appended_eq.
  - left. by apply fs_appended_ne.
Qed.

Lemma main_touches w : touches w (main w).2.
Proof.
  apply (keeps_main touches) with (r := (main w).1).
  - intros s w1. by apply touches_same_fs.
  - intros line w1. by apply touches_same_fs.
  - intros w1. by apply touches_same_fs.
  - apply touches_makedirs.
  - apply touches_written.
  - apply touches_appended.
  - apply surjective_pairing.
Qed.

Lemma touches_frame w w' q :
  touches w w' → ¬ layout_dir q → ¬ output_file q → ¬ audit_file q →
  fs w' !! q = fs w !! q.
Proof.
  intros Hw Hlayout Houtput Haudit.
  by destruct (Hw q) as [Heq|[[? _]|[[? _]|[? _]]]].
Qed.

Lemma not_layout_dir3 a b c : ¬ layout_dir [a; b; c].
Proof. intros Hq. apply layout_dir_short in Hq. cbn in Hq. lia. Qed.

(** X4.  Whether the run returns or raises, a path that is no directory
    of the layout, none of the four files [main] overwrites and no audit log
    holds at the end what it held at the start. *)
Theorem main_changes_only_its_outputs w q :
  ¬ layout_dir q → ¬ output_file q → ¬ audit_file q →
  fs (main w).2 !! q = fs w !! q.
Proof.
  apply touches_frame, main_touches.
Qed.

(** X5.  Whether the run returns or raises, nothing at or below
    [inputs], and nothing below the extracted-text directory, is created,
    changed or removed. *)
Theorem main_never_touches_inputs w rest :
  fs (main w).2 !! (INPUT_DIR ++ rest) = fs w !! (INPUT_DIR ++ rest) ∧
  ∀ name,
    fs (main w).2 !! (EXTRACTED_DIR ++ name :: rest)
      = fs w !! (EXTRACTED_DIR ++ name :: rest).
Proof.
  split; [|intros name].
  - destruct (main_touches w (INPUT_DIR ++ rest))
      as [Heq|[[[_ (d & Hd & Hpre)] _]|[[Hout _]|[[n Hlog] _]]]]; [done|..].
    + unfold created_dirs in Hd. rewrite !elem_of_cons, elem_of_nil in Hd.
      by destruct Hd as [->|[->|[->|[->|[->|[]]]]]]; destruct Hpre as [k Hk].
    + by destruct Hout as [?|[?|[[n ?]|[n ?]]]].
    + done.
  - destruct (main_touches w (EXTRACTED_DIR ++ name :: rest))
      as [Heq|[[Hlayout _]|[[Hout _]|[[n Hlog] _]]]]; [done|..].
    + apply layout_dir_short in Hlayout. cbn in Hlayout. lia.
    + by destruct Hout as [?|[?|[[n ?]|[n ?]]]].
    + done.
Qed.

(** X6.  Whether the run returns or raises, it removes nothing: a
    directory is still a directory at the end, and a regular file is still a
    regular file. *)
Theorem main_keeps_what_exists w q :
  (fs w !! q = Some Dir → fs (main w).2 !! q = Some Dir) ∧
  (∀ content, fs w !! q = Some (File content) →
     ∃ content', fs (main w).2 !! q = Some (File content')).
Proof.
  destruct (main_touches w q)
    as [Heq|[(_ & Hnone & _)|[(_ & Hnd & c & Hc)|(_ & Hnd & t & Ht)]]].
  - rewrite Heq. split; [done|]. intros content Hq. by exists content.
  - split; [congruence|]. intros content Hq. congruence.
  - split; [done|]. intros _ _. by exists c.
  - split; [done|]. intros _ _. by eexists.
Qed.

(** X8.  Whether the run returns or raises, the audit log of every day
    holds at the end what it held at the start, followed by what the run
    added: the log is opened with mode ["a"] and nothing else writes it. *)
Theorem audit_logs_only_grow w date :
  ∃ text,
    old_content (fs (main w).2) (audit_log date)
      = old_content (fs w) (audit_log date) +:+ text.
Proof.
  destruct (main_touches w (audit_log date))
    as [Heq|[(Hlayout & _)|[(Hout & _)|(_ & _ & t & Ht)]]].
  - exists "". by rewrite string_app_nil_r, (old_content_lookup _ _ _ Heq).
  - by destruct (not_a_log_layout_dir _ Hlayout date).
  - by destruct (not_a_log_output_file _ Hout date).
  - exists t. unfold old_content at 1. by rewrite Ht.
Qed.

(** X10.  The audit log and the two exports named after a day the
    calendar does not show during the run are left as they are, whether the
    run returns or raises: the date in the name keeps the days apart. *)
Theorem other_days_stay_untouched w other :
  (∀ n, date_today n ≠ other) →
  fs (main w).2 !! audit_log other = fs w !! audit_log other ∧
  fs (main w).2 !! json_out other = fs w !! json_out other ∧
  fs (main w).2 !! excel_out other = fs w !! excel_out other.
Proof.
  intros Hother.
  split_and!; (apply (touches_frame w); [apply main_touches|apply not_layout_dir3|..]).
  - intros Hout. by destruct (not_a_log_output_file _ Hout other).
  - intros [n Hn]. apply audit_log_inj in Hn. by destruct (Hother n).
  - intros [?|[?|[[n Hn]|[n ?]]]]; [done..| |done].
    apply json_out_inj in Hn. by destruct (Hother n).
  - by intros [n ?].
  - intros [?|[?|[[n ?]|[n Hn]]]]; [done..|].
    apply excel_out_inj in Hn. by destruct (Hother n).
  - by intros [n ?].
Qed.

End Touches.

(** ** Every entry lies in a directory *)

Lemma parent_snoc base (n : string) : parent (base ++ [n]) = base.
Proof. apply removelast_last. Qed.






Global Instance stays_well_formed_preorder : PreOrder stays_well_formed.
Proof.
  split; [intros w Hwf; exact Hwf|]. intros w1 w2 w3 H12 H23 Hwf. apply H23, H12, Hwf.
Qed.


(** ** What a run calls and prints *)

Global Instance grows_by_preorder Q : PreOrder (grows_by Q).
Proof.
  split.
  - intros w. exists []. by rewrite app_nil_r.
  - intros w1 w2 w3 (ev1 & H1 & Hq1) (ev2 & H2 & Hq2). exists (ev1 ++ ev2).
    rewrite H2, H1, (assoc_L (++)). split; [done|]. by apply Forall_app.
Qed.

Lemma lines_printed_app tr1 tr2 :
  lines_printed (tr1 ++ tr2) = lines_printed tr1 ++ lines_printed tr2.
Proof. apply omap_app. Qed.

Lemma stages_called_no_call events : Forall no_call events → stages_called events = [].
Proof.
  induction 1 as [|e events He _ IH]; [done|].
  destruct e; cbn; try done. by destruct (He s).
Qed.

Lemma lines_printed_no_print events : Forall no_print events → lines_printed events = [].
Proof.
  induction 1 as [|e events He _ IH]; [done|].
  destruct e; cbn; try done. by destruct (He line).
Qed.

Section GrowsBy.
Context `{E : Env} (Q : event → Prop).
Hypothesis Q_write : ∀ q content, Q (EvWrite q content).
Hypothesis Q_append : ∀ q text, Q (EvAppend q text).

Lemma grows_by_same_trace w w' : trace w' = trace w → grows_by Q w w'.
Proof. intros Htr. exists []. by rewrite app_nil_r. Qed.

Lemma grows_by_log e w : Q e → grows_by Q w (log e w).
Proof. intros He. exists [e]. split; [done|]. by apply Forall_singleton. Qed.

Lemma grows_by_tick w : grows_by Q w (tick w).
Proof. by apply grows_by_same_trace. Qed.

Lemma grows_by_makedirs d w f' :
  d ∈ created_dirs → makedirs_from [] d (fs w) = Ok f' → grows_by Q w (set_fs f' w).
Proof. intros _ _. by apply grows_by_same_trace. Qed.

Lemma grows_by_written q content w :
  output_file q → open_for_writing (fs w) q = None → grows_by Q w (written q content w).
Proof. intros _ _. exists [EvWrite q content]. split; [done|]. by apply Forall_singleton. Qed.

Lemma grows_by_appended q text w :
  audit_file q → open_for_writing (fs w) q = None → grows_by Q w (appended q text w).
Proof. intros _ _. exists [EvAppend q text]. split; [done|]. by apply Forall_singleton. Qed.

End GrowsBy.

Lemma calls_bind {A B} l1 l2 (m : M A) (k : A → M B) :
  calls l1 m → (∀ a, calls l2 (k a)) → calls (l1 ++ l2) (m ≫= k).
Proof.
  intros Hm Hk w r w'. unfold mbind, M_bind.
  destruct (m w) as [[a|e1] w1] eqn:H1.
  - intros H2. destruct (Hm _ _ _ H1) as (ev1 & Htr1 & _ & Hl1).
    destruct (Hk _ _ _ _ H2) as (ev2 & Htr2 & Hpre & Hl2).
    exists (ev1 ++ ev2). rewrite Htr2, Htr1, (assoc_L (++)), stages_called_app.
    rewrite Hl1 by by exists a. split_and!; [done|by apply prefix_app|].
    intros Hr. by rewrite Hl2.
  - intros [= <- <-]. destruct (Hm _ _ _ H1) as (ev1 & Htr1 & Hpre & _).
    exists ev1. split_and!; [done|by apply prefix_app_r|]. by intros [a ?].
Qed.

Lemma calls_nothing {A} (m : M A) : preserves (grows_by no_call) m → calls [] m.
Proof.
  intros Hm w r w' Hrun. destruct (Hm _ _ _ Hrun) as (events & Htr & Hq).
  exists events. by rewrite (stages_called_no_call _ Hq).
Qed.

Lemma calls_call {A} s (r : res A) : calls [s] (call s r).
Proof. intros w r' w' [= _ <-]. by exists [EvCall s]. Qed.

Lemma calls_call_bind {A B} s (r : res A) (k : A → M B) :
  (∀ a, preserves (grows_by no_call) (k a)) → calls [s] (call s r ≫= k).
Proof.
  intros Hk. apply (calls_bind [s] []); [apply calls_call|].
  intros a. apply calls_nothing, Hk.
Qed.

Lemma announces_bind {A B} line (m : M A) (k : A → M B) :
  preserves (grows_by no_print) m → (∀ a, announces line (k a)) →
  announces line (m ≫= k).
Proof.
  intros Hm Hk w r w'. unfold mbind, M_bind.
  destruct (m w) as [[a|e1] w1] eqn:H1.
  - intros H2. destruct (Hm _ _ _ H1) as (ev1 & Htr1 & Hq1).
    destruct (Hk _ _ _ _ H2) as (ev2 & Htr2 & Hr).
    exists (ev1 ++ ev2). rewrite Htr2, Htr1, (assoc_L (++)), lines_printed_app.
    rewrite (lines_printed_no_print _ Hq1). split; [done|].
    destruct r as [b|e]; [|done]. destruct Hr as [Hl Hlast]. split; [done|].
    by rewrite last_app, Hlast.
  - intros [= <- <-]. destruct (Hm _ _ _ H1) as (ev1 & Htr1 & Hq1).
    exists ev1. by rewrite (lines_printed_no_print _ Hq1).
Qed.

Lemma announces_print {A} line (a : A) : announces line (print line;; mret a).
Proof. intros w r w' [= <- <-]. by exists [EvPrint line]. Qed.

Section Order.
Context `{E : Env}.

Ltac quiet := first
  [ by intros; apply grows_by_log; intros ? | by apply grows_by_tick | by apply grows_by_makedirs
  | by apply grows_by_written | by apply grows_by_appended | apply _ ].

Lemma main_calls :
  calls [Normalizer; CoverageExpander; Generator; Validator; Deduplicator] main.
Proof.
  unfold main.
  apply (calls_bind [] _); [apply calls_nothing, keeps_startup; quiet|].
  intros [raw_text raw_f].
  apply (calls_bind [Normalizer] _).
  { apply calls_call_bind. intros reqs. apply keeps_normalize_rest; quiet. }
  intros reqs. apply (calls_bind [CoverageExpander] _).
  { apply calls_call_bind. intros items. apply keeps_audit_ret; quiet. }
  intros items. apply (calls_bind [Generator] _).
  { apply calls_call_bind. intros cases. apply keeps_audit_ret; quiet. }
  intros cases. apply (calls_bind [Validator] _).
  { apply calls_call_bind. intros [valid rej].
    apply keeps_validate_rest; quiet. }
  intros [valid rej]. apply (calls_bind [Deduplicator] []).
  { apply calls_call_bind. intros final. apply keeps_audit_ret; quiet. }
  intros final. apply calls_nothing.
  apply preserves_bind; [apply _|apply keeps_export; quiet|intros _].
  apply preserves_bind; [apply _|apply keeps_save_audit_log; quiet|intros _].
  apply preserves_bind; [apply _|apply preserves_print|intros _].
  - intros line w. by apply grows_by_log.
  - apply preserves_ret, _.
Qed.

Lemma main_announces :
  announces "Test Case Generation Pipeline completed successfully" main.
Proof.
  unfold main.
  apply announces_bind; [apply keeps_startup; quiet|].
  intros [raw_text raw_f].
  apply announces_bind; [apply keeps_normalize; quiet|]. intros reqs.
  apply announces_bind; [apply keeps_expand; quiet|]. intros items.
  apply announces_bind; [apply keeps_generate; quiet|]. intros cases.
  apply announces_bind; [apply keeps_validate; quiet|].
  intros [valid rej].
  apply announces_bind; [apply keeps_dedup; quiet|]. intros final.
  apply announces_bind; [apply keeps_export; quiet|]. intros _.
  apply announces_bind; [apply keeps_save_audit_log; quiet|]. intros _.
  apply announces_print.
Qed.

(** X11.  Whether the run returns or raises, the collaborators it has
    called are the first ones of Normalizer, Coverage Expander, Generator,
    Validator, Deduplicator, in that order and once each; a run that returns
    has called all five. *)
Theorem main_calls_stages_in_order w :
  ∃ events,
    trace (main w).2 = trace w ++ events ∧
    stages_called events
      `prefix_of` [Normalizer; CoverageExpander; Generator; Validator; Deduplicator] ∧
    (returns (main w).1 →
     stages_called events
       = [Normalizer; CoverageExpander; Generator; Validator; Deduplicator]).
Proof. apply (main_calls w). apply surjective_pairing. Qed.

(** X12.  A run that returns prints the message of line 132 once, as
    its last act; a run that raises prints nothing. *)
Theorem success_line_printed_only_on_return w :
  ∃ events,
    trace (main w).2 = trace w ++ events ∧
    match (main w).1 with
    | Ok _ =>
        lines_printed events = ["Test Case Generation Pipeline completed successfully"] ∧
        last events = Some (EvPrint "Test Case Generation Pipeline completed successfully")
    | Raise _ => lines_printed events = []
    end.
Proof. apply (main_announces w). apply surjective_pairing. Qed.

End Order.

(** ** The exceptions that leave a run *)







Section Taxonomy.
Context `{E : Env}.




(** X14.  An exception raised by a collaborator leaves [main] as it is,
    right after the call: nothing is caught, and nothing is written or logged
    after it.  This holds for each of the five collaborators. *)
Theorem collaborator_exception_leaves_main e :
  (∀ w raw_text raw_f w1,
     reaches_normalization w raw_text raw_f w1 →
     normalize_requirements raw_text = Raise e →
     main w = (Raise e, log (EvCall Normalizer) w1)) ∧
  (∀ w reqs w2,
     reaches_expansion w reqs w2 →
     expand_coverage reqs = Raise e →
     main w = (Raise e, log (EvCall CoverageExpander) w2)) ∧
  (∀ w reqs w2 items w3,
     reaches_expansion w reqs w2 →
     expand reqs w2 = (Ok items, w3) →
     generate_testcases items = Raise e →
     main w = (Raise e, log (EvCall Generator) w3)) ∧
  (∀ w cases w4,
     reaches_validation w cases w4 →
     validate_testcases cases = Raise e →
     main w = (Raise e, log (EvCall Validator) w4)) ∧
  (∀ w cases w4 valid rej w5,
     reaches_validation w cases w4 →
     validate cases w4 = (Ok (valid, rej), w5) →
     deduplicate valid = Raise e →
     main w = (Raise e, log (EvCall Deduplicator) w5)).
Proof.
  split_and!.
  - intros w raw_text raw_f w1 Hreach He.
    rewrite (main_from_normalization _ _ _ _ Hreach).
    unfold after_startup, normalize, mbind, M_bind, call. by rewrite He.
  - intros w reqs w2 Hreach He.
    destruct (main_from_expansion _ _ _ Hreach) as (raw_f & ->).
    unfold after_normalization, expand, mbind, M_bind, call. by rewrite He.
  - intros w reqs w2 items w3 Hreach Hexp He.
    destruct (main_from_expansion _ _ _ Hreach) as (raw_f & ->).
    unfold after_normalization. rewrite (bind_Ok _ _ _ _ _ Hexp).
    unfold after_expansion, generate, mbind, M_bind, call. by rewrite He.
  - intros w cases w4 Hreach He.
    destruct (main_from_validation _ _ _ Hreach) as (raw_f & reqs & items & ->).
    unfold after_generation, validate, mbind, M_bind, call. by rewrite He.
  - intros w cases w4 valid rej w5 Hreach Hval He.
    destruct (main_from_validation _ _ _ Hreach) as (raw_f & reqs & items & ->).
    unfold after_generation. rewrite (bind_Ok _ _ _ _ _ Hval).
    unfold after_validation, dedup, mbind, M_bind, call. by rewrite He.
Qed.

End Taxonomy.

(** ** When the layout cannot be created *)


Lemma makedirs_from_Raise rest : ∀ base f e,
  makedirs_from base rest f = Raise e →
  e = FileExistsError "[Errno 17] File exists" ∨
  e = NotADirectoryError "[Errno 20] Not a directory".
Proof.
  induction rest as [|n rest IH]; intros base f e; cbn [makedirs_from]; [done|].
  destruct (f !! (base ++ [n])) as [[|c]|]; [apply IH| |apply IH].
  intros [= <-]. destruct rest; [by left|by right].
Qed.






Lemma blames_for_each_makedirs_class ds :
  blames (λ e, e = FileExistsError "[Errno 17] File exists" ∨
               e = NotADirectoryError "[Errno 20] Not a directory")
    (for_each ds os_makedirs).
Proof.
  induction ds as [|d ds IH]; cbn [for_each]; [apply blames_ret|].
  apply blames_bind; [|by intros _].
  intros w e w'. unfold os_makedirs.
  destruct (makedirs_from [] d (fs w)) as [f'|e'] eqn:Hmk; [done|].
  intros [= <- _]. by apply (makedirs_from_Raise d [] (fs w)).
Qed.


(** ** What the raw-text load depends on *)

Lemma raw_text_entry_agree f f' :
  (∀ name, startswith "RAW_TEXT_" name = true →
           f !! os_path_join EXTRACTED_DIR name = f' !! os_path_join EXTRACTED_DIR name) →
  ∀ name, raw_text_entry f name ↔ raw_text_entry f' name.
Proof.
  intros Hagree name. unfold raw_text_entry.
  split; intros [Hin Hpre]; (split; [|done]).
  - by rewrite <- (Hagree name Hpre).
  - by rewrite (Hagree name Hpre).
Qed.

Lemma last_raw_text_files_agree f f' :
  (∀ name, raw_text_entry f name ↔ raw_text_entry f' name) →
  last (raw_text_files f') = last (raw_text_files f).
Proof.
  intros Hagree. destruct (last (raw_text_files f)) as [latest|] eqn:Hlast.
  - apply last_raw_text_files_Some. apply last_raw_text_files_Some in Hlast as [Hin Hmax].
    split; [by apply Hagree|]. intros name Hname. by apply Hmax, Hagree.
  - apply last_raw_text_files_None. intros name Hname.
    apply (proj1 (last_raw_text_files_None f) Hlast name). by apply Hagree.
Qed.

(** X2.  [load_raw_text] depends on the extracted-text directory and on
    its entries with the [RAW_TEXT_] prefix only: in two worlds that agree on
    these it returns or raises the same, whatever else the directory holds.
    It changes nothing in either world. *)
Theorem load_raw_text_reads_only_raw_text w w' :
  fs w !! EXTRACTED_DIR = fs w' !! EXTRACTED_DIR →
  (∀ name, startswith "RAW_TEXT_" name = true →
     fs w !! os_path_join EXTRACTED_DIR name = fs w' !! os_path_join EXTRACTED_DIR name) →
  (load_raw_text w).1 = (load_raw_text w').1 ∧
  (load_raw_text w).2 = w ∧ (load_raw_text w').2 = w'.
Proof.
  intros Hdir Hagree. split; [|split; by eapply load_raw_text_world, surjective_pairing].
  destruct (fs w !! EXTRACTED_DIR) as [[|c]|] eqn:Hw.
  - rewrite !load_raw_text_eq by done.
    rewrite (last_raw_text_files_agree (fs w) (fs w')) by by apply raw_text_entry_agree.
    destruct (last (raw_text_files (fs w))) as [latest|] eqn:Hlast; [|done].
    apply last_raw_text_files_Some in Hlast as [[_ Hpre] _].
    rewrite <- (Hagree latest Hpre).
    by destruct (fs w !! os_path_join EXTRACTED_DIR latest) as [[|text]|].
  - unfold load_raw_text, mbind, M_bind, os_listdir, node_at, EXTRACTED_DIR in *.
    by rewrite Hw, <- Hdir.
  - unfold load_raw_text, mbind, M_bind, os_listdir, node_at, EXTRACTED_DIR in *.
    by rewrite Hw, <- Hdir.
Qed.

(** X3.  [load_raw_text] opens the entry that sorts last and no other:
    when that entry is a directory the load raises [IsADirectoryError] and
    leaves the world as it is, even if regular files with the prefix sort
    before it. *)
Theorem load_raw_text_does_not_fall_back w latest :
  fs w !! EXTRACTED_DIR = Some Dir →
  fs w !! os_path_join EXTRACTED_DIR latest = Some Dir →
  startswith "RAW_TEXT_" latest = true →
  (∀ name, raw_text_entry (fs w) name → str_le name latest) →
  load_raw_text w = (Raise (IsADirectoryError "[Errno 21] Is a directory"), w).
Proof.
  intros Hdir Hlatest Hpre Hmax. rewrite load_raw_text_eq by done.
  assert (last (raw_text_files (fs w)) = Some latest) as ->.
  { apply last_raw_text_files_Some. split; [|done]. split; [|done]. by rewrite Hlatest. }
  by rewrite Hlatest.
Qed.

(** ** What the files hold at the end of a run *)

Section Survives.
Context `{E : Env}.

Lemma after_normalization_leaves (P : path → Prop) raw_f reqs :
  (∀ q, P q → not_a_log q) → ¬ P reject_log →
  (∀ date, ¬ P (json_out date)) → (∀ date, ¬ P (excel_out date)) →
  preserves (leaves P) (after_normalization raw_f reqs).
Proof.
  intros Hlog Hreject Hjson Hexcel.
  assert (Hcall : ∀ s w, leaves P w (log (EvCall s) w)) by (intros s w; by apply leaves_log).
  assert (Haudit : ∀ msg w, leaves P w (audited msg w)) by (intros; by apply leaves_audited).
  unfold after_normalization, expand.
  apply preserves_bind; [apply _| |intros items].
  { apply preserves_bind; [apply _|by apply preserves_call|intros items].
    apply preserves_bind; [apply _| |intros _; apply preserves_ret, _].
    apply preserves_save_audit_log; [apply leaves_tick|done]. }
  unfold after_expansion, generate.
  apply preserves_bind; [apply _| |intros cases].
  { apply preserves_bind; [apply _|by apply preserves_call|intros cases].
    apply preserves_bind; [apply _| |intros _; apply preserves_ret, _].
    apply preserves_save_audit_log; [apply leaves_tick|done]. }
  apply (preserves_after_generation (leaves P) (λ q, ¬ P q)); try done.
  - intros line w. by apply leaves_log.
  - apply leaves_tick.
  - intros p c w Hp. by apply leaves_written.
Qed.

(** X16.  Once normalization has returned, the file written at line 80
    holds the serialized requirements at the end of the run, whether the run
    then returns or raises. *)
Theorem requirements_file_survives w reqs w2 :
  reaches_expansion w reqs w2 →
  fs (main w).2 !! req_file = Some (File (json_dump reqs)).
Proof.
  intros Hreach. destruct (main_from_expansion _ _ _ Hreach) as (raw_f & ->).
  destruct Hreach as (raw_text & raw_f' & w1 & _ & Hnorm).
  apply normalize_Ok_inv in Hnorm as (_ & _ & _ & _ & ->).
  destruct (after_normalization_leaves (λ q, q = req_file) raw_f reqs) with
    (w := normalize_world reqs w1)
    (r := (after_normalization raw_f reqs (normalize_world reqs w1)).1)
    (w' := (after_normalization raw_f reqs (normalize_world reqs w1)).2) as [Hfs _].
  - intros q ->. apply not_a_log_req_file.
  - done.
  - done.
  - done.
  - apply surjective_pairing.
  - rewrite Hfs by done. unfold normalize_world.
    rewrite fs_audited_ne by apply not_a_log_req_file. apply fs_written_eq.
Qed.

End Survives.

Section DayLog.
Context `{E : Env} (day : string).
Hypothesis today : ∀ n, date_today n = day.

Lemma log_audited msg w :
  old_content (fs (audited msg w)) (audit_log day)
    = old_content (fs w) (audit_log day) +:+ (msg +:+ nl).
Proof.
  rewrite (audited_day day today). unfold old_content at 1. by rewrite fs_appended_eq.
Qed.

Lemma log_written q content w :
  not_a_log q →
  old_content (fs (written q content w)) (audit_log day) = old_content (fs w) (audit_log day).
Proof.
  intros Hq. apply old_content_lookup, fs_written_ne. intros Heq. by destruct (Hq day).
Qed.

(** X9.  On one calendar day, the day's audit log after a completed run
    holds what it held before, followed by the run's messages in the order of
    [main], one per line. *)
Theorem audit_log_of_completed_run w v w' :
  main w = (Ok v, w') →
  fs w' !! audit_log day =
    Some (File (old_content (fs w) (audit_log day)
                  +:+ audit_text (audit_messages v day day))).
Proof.
  intros Hmain. apply main_Ok_inv in Hmain as (w0 & raw_text & Hdirs & _ & _ & _ & _ & _ & _ & _ & ->).
  destruct (fs_main_world_log day today v w0) as [c Hc]. rewrite Hc. do 2 f_equal.
  assert (c = old_content (fs (main_world v w0)) (audit_log day)) as ->.
  { unfold old_content. by rewrite Hc. }
  rewrite <- (old_content_lookup (fs w) (fs w0) (audit_log day))
    by apply (ensure_dirs_frame3 _ _ _ _ _ Hdirs).
  unfold main_world, finish_world, export_world, excel_exported, json_exported,
    dedup_world, validate_world, generate_world, expand_world, normalize_world,
    startup_world, audit_text, audit_messages.
  destruct (rejected v) as [|rej rejs];
    cbn [fmap list_fmap app String.concat]; rewrite !today;
    repeat first
      [ rewrite log_audited | rewrite fs_tick | rewrite fs_log
      | rewrite log_written by first
          [ apply not_a_log_req_file | apply not_a_log_reject_log
          | apply not_a_log_json_out | apply not_a_log_excel_out ] ];
    by rewrite ?string_app_nil_l, ?string_app_assoc.
Qed.

End DayLog.

Section Exports.
Context `{E : Env}.

(** X17.  After a completed run the JSON export and the spreadsheet
    export both hold the final test cases, each under the date of the day it
    was made (the JSON export first), and the audit trail names these two
    paths.  No assumption is made on the calendar. *)
Theorem exports_hold_final_testcases w v w' :
  main w = (Ok v, w') →
  ∃ n n',
    (n < n')%nat ∧
    fs w' !! json_out (date_today n) = Some (File (json_dump (final_testcases v))) ∧
    fs w' !! excel_out (date_today n') = Some (File (to_excel (final_testcases v))) ∧
    ∃ events,
      trace w' = trace w ++ events ∧
      (("Exported JSON: " +:+ abspath (json_out (date_today n))) +:+ nl)
        ∈ audit_entries events ∧
      (("Exported Excel: " +:+ abspath (excel_out (date_today n'))) +:+ nl)
        ∈ audit_entries events.
Proof.
  intros Hmain.
  apply main_Ok_inv in Hmain as (w0 & raw_text & Hdirs & _ & _ & _ & _ & _ & _ & _ & ->).
  apply ensure_dirs_Ok in Hdirs as (_ & Htrace & _).
  unfold main_world, finish_world, export_world.
  set (W := dedup_world _ _).
  assert (∃ before, trace W = trace w ++ before) as [before HW].
  { subst W. rewrite <- Htrace. destruct (rejected v); stage_worlds;
      rewrite <- ?(assoc_L (++)); by eexists. }
  exists (ticks W), (ticks (json_exported (final_testcases v) W)). split_and!.
  - unfold json_exported. autorewrite with world. lia.
  - rewrite fs_log, fs_audited_ne by apply not_a_log_json_out.
    unfold excel_exported. rewrite fs_audited_ne by apply not_a_log_json_out.
    rewrite fs_written_ne by done. rewrite fs_tick.
    unfold json_exported. rewrite fs_audited_ne by apply not_a_log_json_out.
    apply fs_written_eq.
  - rewrite fs_log, fs_audited_ne by apply not_a_log_excel_out.
    unfold excel_exported. rewrite fs_audited_ne by apply not_a_log_excel_out.
    apply fs_written_eq.
  - eexists. split.
    + rewrite trace_log, trace_audited. unfold excel_exported at 1.
      rewrite trace_audited, trace_written, trace_tick. unfold json_exported at 1.
      rewrite trace_audited, trace_written, trace_tick, HW.
      rewrite <- !(assoc_L (++)). reflexivity.
    + unfold audit_entries. rewrite !omap_app. cbn [omap list_omap].
      rewrite !elem_of_app, !elem_of_cons. naive_solver.
Qed.

End Exports.

(** ** What a missing directory can be *)

Lemma layout_lookup f d : layout f → d ∈ created_dirs → f !! d = Some Dir.
Proof.
  intros Hl Hd. unfold layout in Hl. rewrite Forall_forall in Hl.
  pose proof (Hl d Hd) as Hdir. unfold created_dirs in Hd.
  rewrite !elem_of_cons, elem_of_nil in Hd.
  destruct Hd as [->|[->|[->|[->|[->|[]]]]]];
    first [by apply isdir_lookup2|by apply isdir_lookup1].
Qed.

(** A file in one of the five directories can be opened unless it is a
    directory itself. *)
Lemma open_in_layout f d name e :
  layout f → d ∈ created_dirs →
  open_for_writing f (d ++ [name]) = Some e →
  e = IsADirectoryError "[Errno 21] Is a directory".
Proof.
  intros Hl Hd. unfold open_for_writing. rewrite parent_snoc.
  assert (node_at f d = Some Dir) as ->.
  { rewrite <- (layout_lookup f d Hl Hd). destruct d; [|done].
    by apply layout_lookup with (d := []) in Hl. }
  destruct (node_at f (d ++ [name])) as [[|c]|]; [|done..]. by intros [= <-].
Qed.

Section Diagnosis.
Context `{E : Env}.

Lemma diagnosed_bind {A B} (m : M A) (k : A → M B) :
  diagnosed m → (∀ a, diagnosed (k a)) → diagnosed (m ≫= k).
Proof.
  intros Hm Hk w r w' Hl. unfold mbind, M_bind.
  destruct (m w) as [[a|e1] w1] eqn:H1.
  - intros H2. destruct (Hm _ _ _ Hl H1) as (Hl1 & Hv1 & _).
    destruct (Hk _ _ _ _ Hl1 H2) as (Hl2 & Hv2 & He).
    split_and!; [done|congruence|]. intros Hr. rewrite <- Hv1. by apply He.
  - intros [= <- <-]. destruct (Hm _ _ _ Hl H1) as (Hl1 & Hv1 & He).
    split_and!; [done..|]. intros [= ->]. by apply He.
Qed.

Lemma diagnosed_same_fs {A} (m : M A) :
  (∀ w r w', m w = (r, w') → fs w' = fs w ∧ r ≠ Raise ENOENT) → diagnosed m.
Proof.
  intros Hm w r w' Hl Hrun. destruct (Hm _ _ _ Hrun) as [Hfs Hr].
  rewrite Hfs. by split_and!.
Qed.

Lemma diagnosed_ret {A} (a : A) : diagnosed (mret a : M A).
Proof. apply diagnosed_same_fs. by intros w r w' [= <- <-]. Qed.

Lemma diagnosed_raise {A} e : e ≠ ENOENT → diagnosed (raise e : M A).
Proof. intros He. apply diagnosed_same_fs. intros w r w' [= <- <-]. split; congruence. Qed.

Lemma diagnosed_print line : diagnosed (print line).
Proof. apply diagnosed_same_fs. by intros w r w' [= <- <-]. Qed.

Lemma diagnosed_call {A} s (r : res A) :
  (r = Raise ENOENT → raised_by_collaborator ENOENT) → diagnosed (call s r).
Proof.
  intros Hr w r' w' Hl [= <- <-]. split_and!; [done..|]. intros He. left. by apply Hr.
Qed.

Lemma diagnosed_today_bind {B} (k : string → M B) :
  (∀ date, diagnosed (k date)) → diagnosed (today_isoformat ≫= k).
Proof. intros Hk w r w' Hl Hrun. by apply (Hk (date_today (ticks w)) (tick w) r w'). Qed.

Lemma layout_insert_file f q content :
  layout f → f !! q ≠ Some Dir → layout (<[q := File content]> f).
Proof.
  intros Hl Hq. apply (layout_same_dirs f); [|done]. by apply same_dirs_insert_file.
Qed.

(** Opening a file of one of the five directories. *)
Lemma diagnosed_write_text d name content :
  d ∈ created_dirs → diagnosed (write_text (d ++ [name]) content).
Proof.
  intros Hd w r w' Hl. unfold write_text.
  destruct (open_for_writing (fs w) (d ++ [name])) as [e|] eqn:Hopen; intros [= <- <-].
  - split_and!; [done..|]. intros [= He]. by rewrite (open_in_layout _ _ _ _ Hl Hd Hopen) in He.
  - split_and!; [|apply fs_written_ne|done].
    + apply layout_insert_file; [done|]. by apply open_for_writing_not_dir.
    + intros Heq. apply (f_equal length) in Heq. rewrite length_app in Heq.
      unfold created_dirs in Hd. rewrite !elem_of_cons, elem_of_nil in Hd.
      destruct Hd as [->|[->|[->|[->|[->|[]]]]]]; cbn in Heq; lia.
Qed.

Lemma diagnosed_append_text d name text :
  d ∈ created_dirs → diagnosed (append_text (d ++ [name]) text).
Proof.
  intros Hd w r w' Hl. unfold append_text.
  destruct (open_for_writing (fs w) (d ++ [name])) as [e|] eqn:Hopen; intros [= <- <-].
  - split_and!; [done..|]. intros [= He]. by rewrite (open_in_layout _ _ _ _ Hl Hd Hopen) in He.
  - split_and!; [|apply fs_appended_ne|done].
    + apply layout_insert_file; [done|]. by apply open_for_writing_not_dir.
    + intros Heq. apply (f_equal length) in Heq. rewrite length_app in Heq.
      unfold created_dirs in Hd. rewrite !elem_of_cons, elem_of_nil in Hd.
      destruct Hd as [->|[->|[->|[->|[->|[]]]]]]; cbn in Heq; lia.
Qed.

(** Opening the reject log, whose directory is none of the five. *)
Lemma diagnosed_write_reject_log content : diagnosed (write_text reject_log content).
Proof.
  intros w r w' Hl. unfold write_text.
  destruct (open_for_writing (fs w) reject_log) as [e|] eqn:Hopen; intros [= <- <-].
  - split_and!; [done..|]. intros [= ->]. right.
    unfold open_for_writing in Hopen. cbn [parent removelast reject_log node_at] in Hopen.
    destruct (fs w !! ["validation"]) as [[|c]|] eqn:Hv; [|done..].
    by destruct (fs w !! reject_log) as [[|c]|].
  - split_and!; [|by apply fs_written_ne|done].
    apply layout_insert_file; [done|]. by apply open_for_writing_not_dir.
Qed.

Lemma diagnosed_save_audit_log msg : diagnosed (save_audit_log msg).
Proof.
  unfold save_audit_log. apply diagnosed_today_bind. intros date.
  apply (diagnosed_append_text AUDIT_DIR). unfold created_dirs. set_solver.
Qed.

Lemma diagnosed_ensure_dirs : diagnosed ensure_dirs.
Proof.
  intros w r w' Hl. rewrite (ensure_dirs_isdir w Hl). by intros [= <- <-].
Qed.

Lemma diagnosed_load_raw_text : diagnosed load_raw_text.
Proof.
  intros w r w' Hl Hrun. pose proof (load_raw_text_world _ _ _ Hrun) as ->.
  split_and!; [done..|]. intros ->.
  rewrite load_raw_text_eq in Hrun by (apply layout_lookup; [done|]; by left).
  destruct (last (raw_text_files (fs w))) as [latest|] eqn:Hlast; [|done].
  apply last_raw_text_files_Some in Hlast as [[[x Hx] _] _]. rewrite Hx in Hrun.
  by destruct x.
Qed.

Lemma diagnosed_main : diagnosed main.
Proof.
  unfold main, startup, normalize, expand, generate, validate, dedup, export.
  repeat first
    [ apply diagnosed_ensure_dirs | apply diagnosed_save_audit_log
    | apply diagnosed_load_raw_text | apply diagnosed_ret | apply diagnosed_print
    | apply diagnosed_write_reject_log
    | apply (diagnosed_write_text REQ_DIR); unfold created_dirs; set_solver
    | apply (diagnosed_write_text OUTPUT_JSON); unfold created_dirs; set_solver
    | apply (diagnosed_write_text OUTPUT_EXCEL); unfold created_dirs; set_solver
    | apply diagnosed_raise; discriminate
    | apply diagnosed_call; intros He; unfold raised_by_collaborator, collaborator_failure;
        by eauto 6
    | apply diagnosed_today_bind; intros ?
    | match goal with |- diagnosed (let '(_, _) := ?x in _) => destruct x end
    | match goal with |- diagnosed (match ?x with [] => _ | _ => _ end) => destruct x end
    | apply diagnosed_bind; [|intros ?] ].
Qed.

(** X15.  When [main] is left by the operating system's error for a
    missing directory and no collaborator raised it, the [validation]
    directory is missing: the five directories [ensure_dirs] creates suffice
    for every other file the run opens. *)
Theorem missing_directory_abort_is_validation_dir w :
  (main w).1 = Raise ENOENT →
  raised_by_collaborator ENOENT ∨ fs w !! VALIDATION_DIR = None.
Proof.
  intros Hrun. destruct (ensure_dirs w) as [[[]|e] w0] eqn:Hdirs.
  - rewrite <- (main_after_ensure_dirs _ _ Hdirs) in Hrun.
    pose proof Hdirs as (_ & _ & Hl & _)%ensure_dirs_Ok.
    destruct (diagnosed_main w0 (main w0).1 (main w0).2 Hl (surjective_pairing _))
      as (_ & _ & He).
    rewrite <- (ensure_dirs_frame _ _ _ Hdirs (reject_log_not_created _ (or_intror eq_refl))).
    by apply He.
  - rewrite main_unfold in Hrun. unfold startup in Hrun.
    rewrite (bind_Raise _ _ _ _ _ (bind_Raise _ _ _ _ _ Hdirs)) in Hrun.
    injection Hrun as ->.
    by destruct (blames_for_each_makedirs_class _ _ _ _ Hdirs).
Qed.

End Diagnosis.

(** * The theorems at work on the sample worlds *)

Lemma empty_normalization_aborts_witness :
  is_EmptyResultError (@main no_requirements_env extracted_world).1 ∧
  fs (@main no_requirements_env extracted_world).2 !! req_file = None.
Proof.
  destruct (empty_normalization_aborts (E:=no_requirements_env) extracted_world
              "Users must be able to reset a forgotten password"
              "RAW_TEXT_2024-05-16.txt"
              (@startup no_requirements_env extracted_world).2)
    as (Hraise & _ & _ & Hreq & _).
  - apply run_eq. vm_compute. reflexivity.
  - reflexivity.
  - split; [exact Hraise|]. rewrite Hreq. vm_compute. reflexivity.
Defined.

Lemma missing_raw_text_aborts_witness :
  is_NotFoundError (@main full_env empty_world).1 ∧
  exit_status (@main full_env empty_world).1 = 1%nat.
Proof.
  destruct (missing_raw_text_aborts (E:=full_env) empty_world
              (ensure_dirs empty_world).2) as (Hraise & Hexit & _).
  - apply run_eq. vm_compute. reflexivity.
  - vm_compute. discriminate.
  - intros name [[x Hx] _]. vm_compute in Hx. discriminate.
  - by split.
Defined.

(** Without raw text the run raises [NotFoundError], and yet the day's log
    has received an entry from it. *)
Lemma missing_raw_text_still_logs :
  is_NotFoundError (@main full_env empty_world).1 ∧
  fs (@main full_env empty_world).2 !! audit_log "2024-05-17"
    = Some (File ("Pipeline started" +:+ nl)) ∧
  audit_entries (trace (@main full_env empty_world).2) = ["Pipeline started" +:+ nl].
Proof. split_and!; [by eexists|vm_compute; reflexivity..]. Qed.

Lemma final_no_longer_than_valid_witness :
  ∃ v, (@main spec_full_env validation_world).1 = Ok v ∧
       (length (final_testcases v) ≤ length (valid_testcases v))%nat ∧
       (length (valid_testcases v) ≤ length (generated_testcases v))%nat.
Proof.
  eexists. split; [vm_compute; reflexivity|].
  apply (final_no_longer_than_valid spec_base_env needs_title String.eqb
           json_reasons validation_world _
           (@main spec_full_env validation_world).2).
  apply run_eq. vm_compute. reflexivity.
Defined.

Lemma audit_trail_of_completed_run_witness :
  ∃ events,
    trace (@main rejecting_env validation_world).2 = [] ++ events ∧
    length (audit_entries events) = 10%nat.
Proof.
  destruct (audit_trail_of_completed_run (E:=rejecting_env) validation_world
              (Locals rejecting_env "RAW_TEXT_2024-05-16.txt" ["R1"]
                 ["R1 happy path"; "R1 expired token"] ["T1"; "T2"; "untitled"]
                 ["T1"; "T2"] ["untitled: no steps"] ["T1"; "T2"])
              (@main rejecting_env validation_world).2)
    as (events & date_json & date_excel & Htrace & Hentries & _).
  - apply run_eq. vm_compute. reflexivity.
  - exists events. split; [exact Htrace|]. rewrite Hentries. reflexivity.
Defined.


Lemma same_day_rerun_overwrites_witness :
  ∃ w2,
    @main full_env (@main full_env extracted_world).2
      = (Ok (Locals full_env "RAW_TEXT_2024-05-16.txt" ["R1"]
               ["R1 happy path"; "R1 expired token"] ["T1"; "T2"; "T2"]
               ["T1"; "T2"; "T2"] [] ["T1"; "T2"]), w2) ∧
    ∀ q, q ≠ audit_log "2024-05-17" →
         fs w2 !! q = fs (@main full_env extracted_world).2 !! q.
Proof.
  destruct (same_day_rerun_overwrites (E:=full_env) "2024-05-17" (λ _, eq_refl)
              extracted_world
              (Locals full_env "RAW_TEXT_2024-05-16.txt" ["R1"]
                 ["R1 happy path"; "R1 expired token"] ["T1"; "T2"; "T2"]
                 ["T1"; "T2"; "T2"] [] ["T1"; "T2"])
              (@main full_env extracted_world).2)
    as (w2 & Hrun & _ & _ & _ & Hsame & _).
  - apply run_eq. vm_compute. reflexivity.
  - exists w2. split; [exact Hrun|exact Hsame].
Defined.

Lemma missing_validation_dir_aborts_witness :
  is_NotFoundError (@main rejecting_env extracted_world).1 ∧
  fs (@main rejecting_env extracted_world).2 !! json_out "2024-05-17" = None.
Proof.
  destruct (proj2 (missing_validation_dir_aborts (E:=rejecting_env)) extracted_world
              ["T1"; "T2"; "untitled"]
              (@generate rejecting_env ["R1 happy path"; "R1 expired token"]
                 (@expand rejecting_env ["R1"]
                    (@normalize rejecting_env
                       "Users must be able to reset a forgotten password"
                       (@startup rejecting_env extracted_world).2).2).2).2
              ["T1"; "T2"] ["untitled: no steps"])
    as (Hrun & _).
  - vm_compute. reflexivity.
  - eexists ["R1"], _, ["R1 happy path"; "R1 expired token"], _. split_and!.
    + exists "Users must be able to reset a forgotten password",
        "RAW_TEXT_2024-05-16.txt", (@startup rejecting_env extracted_world).2.
      split; apply run_eq; vm_compute; reflexivity.
    + apply run_eq. vm_compute. reflexivity.
    + apply run_eq. vm_compute. reflexivity.
  - reflexivity.
  - discriminate.
  - rewrite Hrun. split; [by eexists|]. vm_compute. reflexivity.
Defined.

Lemma reject_log_written_when_rejections_witness :
  fs (@main rejecting_env validation_world).2 !! reject_log
    = Some (File "[untitled: no steps]").
Proof.
  destruct (reject_log_written_when_rejections (E:=rejecting_env) validation_world
              ["T1"; "T2"; "untitled"]
              (@generate rejecting_env ["R1 happy path"; "R1 expired token"]
                 (@expand rejecting_env ["R1"]
                    (@normalize rejecting_env
                       "Users must be able to reset a forgotten password"
                       (@startup rejecting_env validation_world).2).2).2).2
              ["T1"; "T2"] ["untitled: no steps"]
              (@main rejecting_env validation_world).1
              (@main rejecting_env validation_world).2)
    as (_ & Hwritten & _).
  - eexists ["R1"], _, ["R1 happy path"; "R1 expired token"], _. split_and!.
    + exists "Users must be able to reset a forgotten password",
        "RAW_TEXT_2024-05-16.txt", (@startup rejecting_env validation_world).2.
      split; apply run_eq; vm_compute; reflexivity.
    + apply run_eq. vm_compute. reflexivity.
    + apply run_eq. vm_compute. reflexivity.
  - reflexivity.
  - apply surjective_pairing.
  - destruct Hwritten as [Hfile _]; [discriminate|vm_compute; reflexivity|].
    exact Hfile.
Defined.

(** A run reaches validation, the Validator rejects a case, and
    [validation/reject_log.json] is not written: there is no [validation]
    directory to write it in. *)
Lemma reject_log_missing_without_validation_dir :
  ∃ cases w4 valid rej,
    reaches_validation (E:=rejecting_env) extracted_world cases w4 ∧
    validate_testcases (Env:=rejecting_env) cases = Ok (valid, rej) ∧
    rej ≠ [] ∧
    fs (@main rejecting_env extracted_world).2 !! reject_log = None ∧
    reject_log ∉ files_written (trace (@main rejecting_env extracted_world).2).
Proof.
  exists ["T1"; "T2"; "untitled"],
    (@generate rejecting_env ["R1 happy path"; "R1 expired token"]
       (@expand rejecting_env ["R1"]
          (@normalize rejecting_env
             "Users must be able to reset a forgotten password"
             (@startup rejecting_env extracted_world).2).2).2).2,
    ["T1"; "T2"], ["untitled: no steps"].
  split_and!.
  - eexists ["R1"], _, ["R1 happy path"; "R1 expired token"], _. split_and!.
    + exists "Users must be able to reset a forgotten password",
        "RAW_TEXT_2024-05-16.txt", (@startup rejecting_env extracted_world).2.
      split; apply run_eq; vm_compute; reflexivity.
    + apply run_eq. vm_compute. reflexivity.
    + apply run_eq. vm_compute. reflexivity.
  - reflexivity.
  - discriminate.
  - vm_compute. reflexivity.
  - vm_compute. intros Hin. apply list_elem_of_singleton in Hin. discriminate Hin.
Qed.

(** ** The further theorems at work *)

Lemma main_changes_only_its_outputs_witness :
  fs (@main full_env extracted_world).2 !! ["validation"; "quality_checks.py"]
    = fs extracted_world !! ["validation"; "quality_checks.py"].
Proof.
  apply (main_changes_only_its_outputs (E:=full_env)).
  - intros Hq. apply layout_dir_short in Hq as Hlen.
    destruct Hq as [_ (d & Hd & Hpre)]. unfold created_dirs in Hd.
    rewrite !elem_of_cons, elem_of_nil in Hd.
    by destruct Hd as [->|[->|[->|[->|[->|[]]]]]]; destruct Hpre as [k Hk].
  - by intros [?|[?|[[n ?]|[n ?]]]].
  - by intros [n ?].
Defined.


Lemma audit_log_of_completed_run_witness :
  fs (@main full_env extracted_world).2 !! audit_log "2024-05-17" =
    Some (File (audit_text
      [ "Pipeline started"; "Loaded raw input: RAW_TEXT_2024-05-16.txt";
        "Normalized 1 requirements"; "Expanded to 2 coverage intents";
        "Generated 3 raw test cases";
        "Final test case count after de-duplication: 2";
        "Exported JSON: /srv/testgen/output/json/banking_test_cases_2024-05-17.json";
        "Exported Excel: /srv/testgen/output/excel/banking_test_cases_2024-05-17.xlsx";
        "Pipeline completed successfully" ])).
Proof.
  rewrite (audit_log_of_completed_run (E:=full_env) "2024-05-17" (λ _, eq_refl)
             extracted_world
             (Locals full_env "RAW_TEXT_2024-05-16.txt" ["R1"]
                ["R1 happy path"; "R1 expired token"] ["T1"; "T2"; "T2"]
                ["T1"; "T2"; "T2"] [] ["T1"; "T2"])
             (@main full_env extracted_world).2).
  - vm_compute. reflexivity.
  - apply run_eq. vm_compute. reflexivity.
Defined.

Lemma other_days_stay_untouched_witness :
  fs (@main full_env extracted_world).2 !! json_out "2024-05-16"
    = fs extracted_world !! json_out "2024-05-16".
Proof.
  destruct (other_days_stay_untouched (E:=full_env) extracted_world "2024-05-16")
    as (_ & Hjson & _).
  - intros n. vm_compute. discriminate.
  - exact Hjson.
Defined.


Lemma collaborator_exception_leaves_main_witness :
  (@main failing_generator_env extracted_world).1
    = Raise (Exception "generator unavailable") ∧
  stages_called (trace (@main failing_generator_env extracted_world).2)
    = [Normalizer; CoverageExpander; Generator].
Proof.
  destruct (collaborator_exception_leaves_main (E:=failing_generator_env)
              (Exception "generator unavailable")) as (_ & _ & Hgen & _).
  rewrite (Hgen extracted_world ["R1"]
             (@normalize failing_generator_env
                "Users must be able to reset a forgotten password"
                (@startup failing_generator_env extracted_world).2).2
             ["R1 happy path"; "R1 expired token"]
             (@expand failing_generator_env ["R1"]
                (@normalize failing_generator_env
                   "Users must be able to reset a forgotten password"
                   (@startup failing_generator_env extracted_world).2).2).2).
  - split; [reflexivity|]. vm_compute. reflexivity.
  - exists "Users must be able to reset a forgotten password",
      "RAW_TEXT_2024-05-16.txt", (@startup failing_generator_env extracted_world).2.
    split; apply run_eq; vm_compute; reflexivity.
  - apply run_eq. vm_compute. reflexivity.
  - reflexivity.
Defined.

Lemma requirements_file_survives_witness :
  (∃ msg, (@main rejecting_env extracted_world).1 = Raise (FileNotFoundError msg)) ∧
  fs (@main rejecting_env extracted_world).2 !! req_file = Some (File "[R1]").
Proof.
  split; [eexists; vm_compute; reflexivity|].
  apply (requirements_file_survives (E:=rejecting_env) extracted_world ["R1"]
           (@normalize rejecting_env
              "Users must be able to reset a forgotten password"
              (@startup rejecting_env extracted_world).2).2).
  exists "Users must be able to reset a forgotten password",
    "RAW_TEXT_2024-05-16.txt", (@startup rejecting_env extracted_world).2.
  split; apply run_eq; vm_compute; reflexivity.
Defined.

Lemma load_raw_text_reads_only_raw_text_witness :
  (load_raw_text annotated_world).1
    = (load_raw_text extracted_world).1.
Proof.
  apply (load_raw_text_reads_only_raw_text annotated_world extracted_world).
  - vm_compute. reflexivity.
  - intros name Hname. unfold annotated_world. cbn [fs].
    apply lookup_insert_ne. intros [= <-]. vm_compute in Hname. discriminate Hname.
Defined.

Lemma load_raw_text_does_not_fall_back_witness :
  load_raw_text archive_world
    = (Raise (IsADirectoryError "[Errno 21] Is a directory"), archive_world) ∧
  raw_text_entry (fs archive_world) "RAW_TEXT_2024-05-16.txt".
Proof.
  split.
  - apply (load_raw_text_does_not_fall_back archive_world "RAW_TEXT_archive").
    + vm_compute. reflexivity.
    + vm_compute. reflexivity.
    + vm_compute. reflexivity.
    + intros name [Hin Hpre]. apply elem_of_entries in Hin.
      assert (entries (fs archive_world) EXTRACTED_DIR =
                ["notes.txt"; "RAW_TEXT_2024-05-16.txt"; "RAW_TEXT_2024-05-02.txt";
                 "RAW_TEXT_archive"]) as Hls by (vm_compute; reflexivity).
      rewrite Hls, !elem_of_cons, elem_of_nil in Hin.
      destruct Hin as [->|[->|[->|[->|[]]]]];
        first [vm_compute; reflexivity|vm_compute in Hpre; discriminate Hpre].
  - split; [by eexists|]. vm_compute. reflexivity.
Defined.

Lemma exports_hold_final_testcases_witness :
  ∃ n n',
    fs (@main full_env extracted_world).2 !! json_out (date_today (Env:=full_env) n)
      = Some (File "[T1, T2]") ∧
    fs (@main full_env extracted_world).2 !! excel_out (date_today (Env:=full_env) n')
      = Some (File "xlsx:[T1, T2]").
Proof.
  destruct (exports_hold_final_testcases (E:=full_env) extracted_world
              (Locals full_env "RAW_TEXT_2024-05-16.txt" ["R1"]
                 ["R1 happy path"; "R1 expired token"] ["T1"; "T2"; "T2"]
                 ["T1"; "T2"; "T2"] [] ["T1"; "T2"])
              (@main full_env extracted_world).2)
    as (n & n' & _ & Hjson & Hexcel & _).
  - apply run_eq. vm_compute. reflexivity.
  - exists n, n'. split; [exact Hjson|exact Hexcel].
Defined.

Lemma missing_directory_abort_is_validation_dir_witness :
  (@main rejecting_env extracted_world).1 = Raise ENOENT ∧
  (raised_by_collaborator (H:=rejecting_env) ENOENT ∨
   fs extracted_world !! VALIDATION_DIR = None).
Proof.
  assert ((@main rejecting_env extracted_world).1 = Raise ENOENT) as Hrun
    by (vm_compute; reflexivity).
  split; [exact Hrun|].
  exact (missing_directory_abort_is_validation_dir (E:=rejecting_env) extracted_world Hrun).
Defined.
